(** * The recipe resource controller

    A shallow embedding of [src/api/controllers/recipe.controller.ts]: the
    four Express routes of the recipe resource, the express-validator chains
    in front of them, [throwIfInvalid], and the handlers that log the request
    and delegate to the record store.

    The controller is glue over three libraries, so the embedding has three
    layers:
    - [Js]: the part of the JavaScript value domain the controller touches
      (strings, JSON-like values, property get and set by path);
    - [Validator]: the validators and sanitizers of validator.js that the
      chains name ([isLength], [trim], [isIn], [isNumeric], ...);
    - the express-validator 6 run-time (field selection, the context of a
      chain, [validationResult], [matchedData]) and the Express middleware
      pipeline, followed by the routes themselves.

    The record store (the recipe service and the Prisma client), the request
    logger, the [ValidationException] class and the four vocabularies of
    [config/models] are collaborators whose code is outside the controller.
    The vocabularies and the store are variables of the section [Controller];
    the logger and the service functions are modelled from the specification,
    as events on a trace and as calls settled by the store. *)

From Stdlib Require Import String Ascii List ZArith Bool Lia DecimalString DecimalNat.
Import ListNotations.
Local Open Scope string_scope.

(** ** JavaScript strings and values *)

Module Js.

(** A string is a sequence of code units.  The model keeps the code units
    0..255 (one [ascii] each); in that range a code unit is a character, no
    surrogate pair or variation selector occurs, and the white space class
    [\s] is exactly TAB, LF, VT, FF, CR, SPACE and NBSP. *)
Definition code (c : ascii) : nat := nat_of_ascii c.

Definition between (lo hi n : nat) : bool := (lo <=? n)%nat && (n <=? hi)%nat.

Definition is_space (c : ascii) : bool :=
  between 9 13 (code c) || (code c =? 32)%nat || (code c =? 160)%nat.

Definition is_digit (c : ascii) : bool := between 48 57 (code c).

(** [String.prototype.toLowerCase] on one code unit: A-Z and the upper-case
    letters of Latin-1 (all of 192..222 but the multiplication sign). *)
Definition lower_char (c : ascii) : ascii :=
  if between 65 90 (code c) || between 192 214 (code c) || between 216 222 (code c)
  then ascii_of_nat (code c + 32)
  else c.

Fixpoint toLowerCase (s : string) : string :=
  match s with
  | EmptyString => EmptyString
  | String c s' => String (lower_char c) (toLowerCase s')
  end.

(** [str.replace(/^\s+/, '')] *)
Fixpoint trimStart (s : string) : string :=
  match s with
  | EmptyString => EmptyString
  | String c s' => if is_space c then trimStart s' else s
  end.

(** [str.replace(/\s+$/, '')] *)
Fixpoint trimEnd (s : string) : string :=
  match s with
  | EmptyString => EmptyString
  | String c s' =>
      match trimEnd s' with
      | EmptyString => if is_space c then EmptyString else String c EmptyString
      | r => String c r
      end
  end.

(** The longest prefix of decimal digits, as digit values. *)
Fixpoint leading_digits (s : string) : list Z :=
  match s with
  | EmptyString => []
  | String c s' =>
      if is_digit c then Z.of_nat (code c - 48) :: leading_digits s' else []
  end.

(** [parseInt(str, 10)]: leading white space is skipped, then an optional
    sign, then the longest run of digits; [None] is NaN.  The integer is kept
    exact (JavaScript rounds it to a double above 2^53). *)
Definition parseInt (s : string) : option Z :=
  let s1 := trimStart s in
  let '(neg, s2) :=
    match s1 with
    | String "-" r => (true, r)
    | String "+" r => (false, r)
    | _ => (false, s1)
    end in
  match leading_digits s2 with
  | [] => None
  | ds =>
      let n := fold_left (fun a d => 10 * a + d)%Z ds 0%Z in
      Some (if neg then (- n)%Z else n)
  end.

(** The values a request carries: what [qs] makes of a query string, what
    Express puts in [req.params], and a parsed JSON body.  An object is the
    list of its own enumerable properties in [Object.keys] order.  A number
    is NaN or an integer small enough to print as its decimal numeral. *)
#[warnings="-register-all"]
Inductive value : Type :=
  | VUndef
  | VNull
  | VBool (b : bool)
  | VNum (z : Z)
  | VNaN
  | VStr (s : string)
  | VArr (elems : list value)
  | VObj (props : list (string * value)).

Definition is_string (v : value) : bool :=
  match v with VStr _ => true | _ => false end.

(** [!!v] *)
Definition truthy (v : value) : bool :=
  match v with
  | VUndef | VNull | VNaN => false
  | VBool b => b
  | VNum z => negb (z =? 0)%Z
  | VStr s => negb (s =? "")
  | VArr _ | VObj _ => true
  end.

(** [_.isObjectLike] *)
Definition isObjectLike (v : value) : bool :=
  match v with VArr _ | VObj _ => true | _ => false end.

Definition decimal (z : Z) : string := NilZero.string_of_int (Z.to_int z).

Definition join (sep : string) (parts : list string) : string :=
  match parts with
  | [] => ""
  | p :: ps => fold_left (fun acc q => acc ++ sep ++ q) ps p
  end.

(** [String(v)]; an array prints its elements separated by commas, with
    nothing for null and undefined, and a plain object (one that does not
    define [toString] itself) prints as "[object Object]". *)
Fixpoint String_ (v : value) : string :=
  match v with
  | VUndef => "undefined"
  | VNull => "null"
  | VBool true => "true"
  | VBool false => "false"
  | VNum z => decimal z
  | VNaN => "NaN"
  | VStr s => s
  | VArr l =>
      join ","
        ((fix elems (l : list value) : list string :=
            match l with
            | [] => []
            | VUndef :: l' => "" :: elems l'
            | VNull :: l' => "" :: elems l'
            | x :: l' => String_ x :: elems l'
            end) l)
  | VObj _ => "[object Object]"
  end.

(** Structural comparison, standing for [===] where express-validator asks
    whether an item changed the value of an instance.  JavaScript compares
    objects by identity there; an array rebuilt by a sanitizer with the same
    elements is then written back over the old one, which leaves the request
    as this comparison leaves it. *)
Fixpoint value_eqb (a b : value) : bool :=
  match a, b with
  | VUndef, VUndef => true
  | VNull, VNull => true
  | VBool x, VBool y => Bool.eqb x y
  | VNum x, VNum y => (x =? y)%Z
  | VNaN, VNaN => true
  | VStr x, VStr y => (x =? y)
  | VArr x, VArr y =>
      (fix go (x y : list value) : bool :=
         match x, y with
         | [], [] => true
         | u :: x', w :: y' => value_eqb u w && go x' y'
         | _, _ => false
         end) x y
  | VObj x, VObj y =>
      (fix go (x y : list (string * value)) : bool :=
         match x, y with
         | [], [] => true
         | (k, u) :: x', (k', w) :: y' => (k =? k') && value_eqb u w && go x' y'
         | _, _ => false
         end) x y
  | _, _ => false
  end.

(** *** Properties by key and by path *)

Definition key_of_index (i : nat) : string := NilZero.string_of_uint (Nat.to_uint i).

(** The array index a property key denotes, if any: the key is the canonical
    decimal numeral of the index. *)
Definition index_of_key (k : string) : option nat :=
  match NilZero.uint_of_string k with
  | Some u => if key_of_index (Nat.of_uint u) =? k then Some (Nat.of_uint u) else None
  | None => None
  end.

Fixpoint assoc (k : string) (props : list (string * value)) : value :=
  match props with
  | [] => VUndef
  | (k', v) :: rest => if k =? k' then v else assoc k rest
  end.

(** [obj[k]] for the keys the controller names and the keys [Object.keys]
    lists; a primitive has none of them. *)
Definition get_key (v : value) (k : string) : value :=
  match v with
  | VObj props => assoc k props
  | VArr l => match index_of_key k with Some i => nth i l VUndef | None => VUndef end
  | _ => VUndef
  end.

(** [_.get(obj, path)] with the path already split into keys. *)
Fixpoint get (v : value) (path : list string) : value :=
  match path with
  | [] => v
  | k :: path' => get (get_key v k) path'
  end.

(** [Object.keys] of an object-like value, none otherwise. *)
Definition Object_keys (v : value) : list string :=
  match v with
  | VObj props => map fst props
  | VArr l => map key_of_index (seq 0 (length l))
  | _ => []
  end.

Fixpoint assoc_set (k : string) (x : value) (props : list (string * value))
  : list (string * value) :=
  match props with
  | [] => [(k, x)]
  | (k', v) :: rest =>
      if k =? k' then (k', x) :: rest else (k', v) :: assoc_set k x rest
  end.

(** [arr[i] = x], growing the array with holes when [i] is past its end. *)
Fixpoint nth_set (i : nat) (x : value) (l : list value) : list value :=
  match i, l with
  | O, [] => [x]
  | O, _ :: l' => x :: l'
  | S i', [] => VUndef :: nth_set i' x []
  | S i', y :: l' => y :: nth_set i' x l'
  end.

(** [obj[k] = x] on an object or an array; a named (non-index) property of
    an array is not represented and a primitive takes no property. *)
Definition set_key (v : value) (k : string) (x : value) : value :=
  match v with
  | VObj props => VObj (assoc_set k x props)
  | VArr l => match index_of_key k with Some i => VArr (nth_set i x l) | None => v end
  | _ => v
  end.

(** [_.set(obj, path, x)] below the root: a step that is not an object is
    replaced by an empty array when the next key is an index and by an empty
    object otherwise. *)
Fixpoint set_in (v : value) (path : list string) (x : value) : value :=
  match path with
  | [] => x
  | k :: path' =>
      let child := get_key v k in
      let child' :=
        match path' with
        | [] => child
        | k2 :: _ =>
            if isObjectLike child then child
            else match index_of_key k2 with Some _ => VArr [] | None => VObj [] end
        end in
      set_key v k (set_in child' path' x)
  end.

(** [_.set(obj, path, x)]: nothing happens unless [obj] is an object. *)
Definition set (v : value) (path : list string) (x : value) : value :=
  if isObjectLike v then set_in v path x else v.

End Js.

(** ** validator.js

    The string validators and sanitizers the chains of the controller name,
    with the options the controller passes. *)

Module Validator.
Import Js.

Definition ltrim (s : string) : string := trimStart s.
Definition rtrim (s : string) : string := trimEnd s.

(** [trim(str)] is [rtrim(ltrim(str))]. *)
Definition trim (s : string) : string := rtrim (ltrim s).

(** [isLength(str, {min, max})]: the length in code units less the
    surrogate pairs, of which a string of the model has none. *)
Definition isLength (min max : nat) (s : string) : bool :=
  (min <=? String.length s)%nat && (String.length s <=? max)%nat.

(** [isIn(str, options)] with an array of strings: [options.indexOf(str) >= 0]. *)
Definition isIn (options : list string) (s : string) : bool :=
  existsb (String.eqb s) options.

Fixpoint all_digits (s : string) : bool :=
  match s with
  | EmptyString => true
  | String c s' => is_digit c && all_digits s'
  end.

Fixpoint skip_digits (s : string) : string :=
  match s with
  | EmptyString => EmptyString
  | String c s' => if is_digit c then skip_digits s' else s
  end.

Definition nonempty (s : string) : bool := negb (s =? "").

(** [([0-9]*[.])?[0-9]+] up to the end of the string. *)
Definition unsigned_numeric (s : string) : bool :=
  match skip_digits s with
  | EmptyString => nonempty s
  | String "." frac => nonempty frac && all_digits frac
  | _ => false
  end.

(** [isNumeric(str)]: the string matches [^[+-]?([0-9]*[.])?[0-9]+$]. *)
Definition isNumeric (s : string) : bool :=
  match s with
  | String "+" r => unsigned_numeric r
  | String "-" r => unsigned_numeric r
  | _ => unsigned_numeric s
  end.

(** [isBoolean(str)]: one of 'true', 'false', '1', '0'. *)
Definition isBoolean (s : string) : bool := isIn ["true"; "false"; "1"; "0"] s.

(** [toBoolean(str)]: everything but '0', 'false' in any case and '' is true. *)
Definition toBoolean (s : string) : bool :=
  negb (s =? "0") && negb (toLowerCase s =? "false") && negb (s =? "").

(** [toInt(str)] is [parseInt(str, 10)]. *)
Definition toInt (s : string) : value :=
  match parseInt s with
  | Some z => VNum z
  | None => VNaN
  end.

End Validator.

(** ** express-validator

    The run-time of express-validator 6 (as of 6.14, where [isString] is a
    custom validator and the standard items work on arrays element by
    element): a chain selects the instances of
    its field in the locations of the request, runs its stack of items over
    them, writes sanitized values back to the request and leaves a context
    (instances and errors) on it for [validationResult] and [matchedData]. *)

Module ExpressValidator.
Import Js.

Inductive location : Type := Body | Cookies | Headers | Params | Query.

Definition location_eqb (a b : location) : bool :=
  match a, b with
  | Body, Body | Cookies, Cookies | Headers, Headers
  | Params, Params | Query, Query => true
  | _, _ => false
  end.

(** What the client sent, as Express presents it. *)
Record message : Type := {
  msg_body : value;
  msg_cookies : value;
  msg_headers : value;
  msg_params : value;
  msg_query : value
}.

Record field_instance : Type := {
  i_location : location;
  i_path : list string;
  i_value : value
}.

(** An error as [validationResult] reports it: [{value, msg, param,
    location}], the path kept as its list of keys. *)
Record validation_error : Type := {
  e_value : value;
  e_msg : string;
  e_param : list string;
  e_location : location
}.

Record context : Type := {
  c_field : string;
  c_instances : list field_instance;
  c_errors : list validation_error
}.

(** The Express request object: the message, and the contexts the chains
    that already ran have attached to it. *)
Record request : Type := {
  req_message : message;
  req_contexts : list context
}.

Definition incoming (m : message) : request :=
  {| req_message := m; req_contexts := [] |}.

(** [req[location]] *)
Definition at_location (req : request) (l : location) : value :=
  match l with
  | Body => msg_body (req_message req)
  | Cookies => msg_cookies (req_message req)
  | Headers => msg_headers (req_message req)
  | Params => msg_params (req_message req)
  | Query => msg_query (req_message req)
  end.

(** [req[location] = v] *)
Definition with_location (req : request) (l : location) (v : value) : request :=
  let m := req_message req in
  {| req_message :=
       match l with
       | Body => {| msg_body := v; msg_cookies := msg_cookies m; msg_headers := msg_headers m;
                    msg_params := msg_params m; msg_query := msg_query m |}
       | Cookies => {| msg_body := msg_body m; msg_cookies := v; msg_headers := msg_headers m;
                       msg_params := msg_params m; msg_query := msg_query m |}
       | Headers => {| msg_body := msg_body m; msg_cookies := msg_cookies m; msg_headers := v;
                       msg_params := msg_params m; msg_query := msg_query m |}
       | Params => {| msg_body := msg_body m; msg_cookies := msg_cookies m;
                      msg_headers := msg_headers m; msg_params := v; msg_query := msg_query m |}
       | Query => {| msg_body := msg_body m; msg_cookies := msg_cookies m;
                     msg_headers := msg_headers m; msg_params := msg_params m; msg_query := v |}
       end;
     req_contexts := req_contexts req |}.

(** express-validator's [toString(value)]: the first element of a non-empty
    array stands for the array, null, undefined and NaN print as the empty
    string, anything else as JavaScript prints it. *)
Definition toString_flat (v : value) : string :=
  match v with
  | VUndef | VNull | VNaN => ""
  | _ => String_ v
  end.

Definition toString (v : value) : string :=
  match v with
  | VArr (x :: _) => toString_flat x
  | _ => toString_flat v
  end.

(** *** Field selection *)

Inductive segment : Type := Key (k : string) | Wildcard.

Fixpoint split_dots (s : string) : list string :=
  match s with
  | EmptyString => [""]
  | String "." s' => "" :: split_dots s'
  | String c s' =>
      match split_dots s' with
      | h :: t => String c h :: t
      | [] => [String c ""]
      end
  end.

(** [_.toPath(field)] for the dotted fields the controller declares. *)
Definition toPath (field : string) : list segment :=
  map (fun k => if k =? "*" then Wildcard else Key k) (split_dots field).

(** [expandPath]: one path per way of replacing each wildcard by a key of
    the object-like value found there; a field without wildcard is one path
    whether or not the request has it. *)
Fixpoint expandPath (v : value) (segments : list segment) : list (list string) :=
  match segments with
  | [] => [[]]
  | Key k :: rest => map (cons k) (expandPath (get_key v k) rest)
  | Wildcard :: rest =>
      flat_map (fun k => map (cons k) (expandPath (get_key v k) rest)) (Object_keys v)
  end.

(** The name of a header is looked up in lower case. *)
Definition pathToExpand (l : location) (field : string) : string :=
  match l with
  | Headers => Js.toLowerCase field
  | _ => field
  end.

Definition expandField (req : request) (field : string) (l : location)
  : list field_instance :=
  map (fun p => {| i_location := l; i_path := p; i_value := get (at_location req l) p |})
      (expandPath (at_location req l) (toPath (pathToExpand l field))).

Definition isSameFieldInstance (a b : field_instance) : bool :=
  location_eqb (i_location a) (i_location b)
  && (if list_eq_dec string_dec (i_path a) (i_path b) then true else false).

(** [_.uniqWith]: the first of the elements that are the same is kept. *)
Fixpoint uniqWith {A : Type} (same : A -> A -> bool) (seen l : list A) : list A :=
  match l with
  | [] => []
  | x :: l' =>
      if existsb (fun y => same y x) seen then uniqWith same seen l'
      else x :: uniqWith same (x :: seen) l'
  end.

Definition selectFields (req : request) (field : string) (locations : list location)
  : list field_instance :=
  uniqWith isSameFieldInstance [] (flat_map (expandField req field) locations).

(** *** Chains *)

(** The items of a chain's stack.  A standard validator or sanitizer is a
    validator.js function on strings; a custom one sees the value itself; a
    condition is what [.if(...)] adds. *)
Inductive item : Type :=
  | CustomValidation (validator : value -> bool)
  | StandardValidation (validator : string -> bool)
  | CustomSanitization (sanitizer : value -> value)
  | StandardSanitization (sanitizer : string -> value)
  | ContextCondition (passes : request -> bool).

Record chain : Type := {
  field : string;
  locations : list location;
  stack : list item
}.

Definition error_at (i : field_instance) (v : value) : validation_error :=
  {| e_value := v; e_msg := "Invalid value"; e_param := i_path i;
     e_location := i_location i |}.

(** The values a standard item works on: the elements of an array, or the
    value alone. *)
Definition wrapped (v : value) : list value :=
  match v with
  | VArr l => l
  | _ => [v]
  end.

(** One item on one instance: the new value of the instance and the errors
    it adds, or [None] when the item halts the chain for this instance. *)
Definition run_item (it : item) (req : request) (i : field_instance)
  : option (value * list validation_error) :=
  match it with
  | CustomValidation validator =>
      Some (i_value i, if validator (i_value i) then [] else [error_at i (i_value i)])
  | StandardValidation validator =>
      Some (i_value i,
            flat_map (fun v => if validator (toString v) then [] else [error_at i v])
                     (wrapped (i_value i)))
  | CustomSanitization sanitizer => Some (sanitizer (i_value i), [])
  | StandardSanitization sanitizer =>
      Some (match i_value i with
            | VArr l => VArr (map (fun v => sanitizer (toString v)) l)
            | v => sanitizer (toString v)
            end, [])
  | ContextCondition passes =>
      if passes req then Some (i_value i, []) else None
  end.

(** After an item, the request takes the instance's value if it differs
    from what the request holds at the path. *)
Definition write_back (req : request) (l : location) (path : list string) (v : value)
  : request :=
  if value_eqb (get (at_location req l) path) v then req
  else match path with
       | [] => with_location req l v
       | _ => with_location req l (set (at_location req l) path v)
       end.

(** The state of a run: the request, the errors so far, and the instances
    with their halted flag.  An item is run over the instances in order,
    each write back following its instance; the validators and sanitizers do
    not read the request, and the conditions of the controller come first in
    their stacks, so the order of the write backs among the instances of an
    item does not show. *)
Definition run_state : Type :=
  (request * list validation_error * list (field_instance * bool))%type.

Fixpoint run_instances (dryRun : bool) (it : item) (req : request)
    (errors : list validation_error) (todo : list (field_instance * bool)) : run_state :=
  match todo with
  | [] => (req, errors, [])
  | (i, halted) :: todo' =>
      let '(req1, errors1, i1) :=
        if halted then (req, errors, (i, true))
        else match run_item it req i with
             | None => (req, errors, (i, true))
             | Some (v, es) =>
                 (if dryRun then req else write_back req (i_location i) (i_path i) v,
                  (errors ++ es)%list,
                  ({| i_location := i_location i; i_path := i_path i; i_value := v |}, false))
             end in
      let '(req2, errors2, done) := run_instances dryRun it req1 errors1 todo' in
      (req2, errors2, i1 :: done)
  end.

Fixpoint run_stack (dryRun : bool) (items : list item) (st : run_state) : run_state :=
  match items with
  | [] => st
  | it :: items' =>
      let '(req, errors, instances) := st in
      run_stack dryRun items' (run_instances dryRun it req errors instances)
  end.

(** [chain.run(req, {dryRun})]: the request afterwards and the errors of
    this chain.  A dry run leaves the request as it was. *)
Definition run (dryRun : bool) (c : chain) (req : request)
  : request * list validation_error :=
  let start := map (fun i => (i, false)) (selectFields req (field c) (locations c)) in
  let '(req', errors, instances) := run_stack dryRun (stack c) (req, [], start) in
  if dryRun then (req, errors)
  else ({| req_message := req_message req';
           req_contexts :=
             (req_contexts req' ++
              [{| c_field := field c; c_instances := map fst instances;
                  c_errors := errors |}])%list |},
        errors).

(** *** Building chains *)

Definition all_locations : list location := [Body; Cookies; Headers; Params; Query].

Definition body (f : string) : chain := {| field := f; locations := [Body]; stack := [] |}.
Definition param (f : string) : chain := {| field := f; locations := [Params]; stack := [] |}.
Definition query (f : string) : chain := {| field := f; locations := [Query]; stack := [] |}.
Definition check (f : string) : chain := {| field := f; locations := all_locations; stack := [] |}.

Definition addItem (it : item) (c : chain) : chain :=
  {| field := field c; locations := locations c; stack := (stack c ++ [it])%list |}.

(** [.exists()]: [value !== undefined] *)
Definition exists_ : chain -> chain :=
  addItem (CustomValidation (fun v => match v with VUndef => false | _ => true end)).

(** [.if(condition)]: the condition chain is run dry and must report nothing. *)
Definition if_ (condition : chain) : chain -> chain :=
  addItem (ContextCondition
             (fun req => match snd (run true condition req) with [] => true | _ => false end)).

(** [.isString()]: [typeof value === 'string'] *)
Definition isString : chain -> chain := addItem (CustomValidation is_string).

Definition isNumeric : chain -> chain := addItem (StandardValidation Validator.isNumeric).
Definition isBoolean : chain -> chain := addItem (StandardValidation Validator.isBoolean).

Definition isIn (values : list string) : chain -> chain :=
  addItem (StandardValidation (Validator.isIn values)).

Definition isLength (min max : nat) : chain -> chain :=
  addItem (StandardValidation (Validator.isLength min max)).

Definition toInt : chain -> chain := addItem (StandardSanitization Validator.toInt).

Definition toBoolean : chain -> chain :=
  addItem (StandardSanitization (fun s => VBool (Validator.toBoolean s))).

Definition trim : chain -> chain :=
  addItem (StandardSanitization (fun s => VStr (Validator.trim s))).

(** [.toLowerCase()]: a string is lowered, any other value is left alone. *)
Definition lower (v : value) : value :=
  match v with
  | VStr s => VStr (Js.toLowerCase s)
  | _ => v
  end.

Definition toLowerCase : chain -> chain := addItem (CustomSanitization lower).

(** *** Reading the contexts *)

(** [validationResult(req)]: the errors of all contexts, in order. *)
Definition validationResult (req : request) : list validation_error :=
  flat_map c_errors (req_contexts req).

Definition is_undefined (v : value) : bool :=
  match v with VUndef => true | _ => false end.

Definition has_wildcard (f : string) : bool :=
  existsb (fun s => match s with Wildcard => true | Key _ => false end) (toPath f).

Fixpoint distinct_locations (seen : list location) (insts : list field_instance) : nat :=
  match insts with
  | [] => 0
  | i :: insts' =>
      if existsb (location_eqb (i_location i)) seen then distinct_locations seen insts'
      else S (distinct_locations (i_location i :: seen) insts')
  end.

(** [context.getData()]: a field without wildcard found in several
    locations keeps the instances that have a value, or the first one. *)
Definition getData (c : context) : list field_instance :=
  let insts := c_instances c in
  if (1 <? length insts)%nat && (1 <? distinct_locations [] insts)%nat
     && negb (has_wildcard (c_field c))
  then match filter (fun i => negb (is_undefined (i_value i))) insts with
       | [] => firstn 1 insts
       | some => some
       end
  else insts.

Definition list_eqb (a b : list string) : bool :=
  if list_eq_dec string_dec a b then true else false.

Definition has_error (c : context) (i : field_instance) : bool :=
  existsb (fun e => location_eqb (e_location e) (i_location i)
                    && list_eqb (e_param e) (i_path i))
          (c_errors c).

(** [matchedData(req)]: the object made of the instances without error of
    all contexts, set one after the other at their paths. *)
Definition matchedData (req : request) : value :=
  fold_left (fun state i => set state (i_path i) (i_value i))
    (flat_map (fun c => filter (fun i => negb (has_error c i)) (getData c))
              (req_contexts req))
    (VObj []).

End ExpressValidator.

(** ** The controller *)

Import Js ExpressValidator.
Local Open Scope list_scope.

Notation "c '|>' f" := (f c) (at level 45, left associativity, only parsing).

(** What [res.json] and [res.send] put on the wire. *)
Inductive payload : Type := Json (v : value) | Text (s : string).

Record response : Type := { status : Z; sent : payload }.

(** Modelled from the spec: the class [ValidationException] of
    [errors/ValidationException], which is not in the controller; the
    specification has the validation error carry the field-level violations,
    so the exception holds the result it is constructed with.  The other thing
    that can be thrown past a route is the reason of a store promise that was
    rejected while the handler awaited it. *)
Inductive exception : Type :=
  | ValidationException (result : list validation_error)
  | Rejection (reason : value).

(** The calls the handlers make on the recipe service and on the Prisma
    client, with their argument. *)
Inductive store_call : Type :=
  | GetAllRecipes (filter : value)
  | GetRecipe (id : value)
  | CreateRecipe (data : value)
  | RecipesDelete (args : value).

(** A store promise settles one way or the other. *)
Inductive settled : Type := Resolved (v : value) | Rejected (reason : value).

(** What the collaborators observe, in order. *)
Inductive event : Type :=
  | Logged (req : request)
  | Called (c : store_call).

(** One step of a route: the middleware calls [next()] or sends a response. *)
Inductive step : Type := Next (req : request) | Sent (r : response).

Inductive operation : Type := ListRecipes | GetRecipeById | CreateNewRecipe | DeleteRecipe.

(** The world a handler acts on: the state of the record store, and the
    events observed so far. *)
Record world (Store : Type) : Type := { store : Store; trace : list event }.

Arguments store {Store} _.
Arguments trace {Store} _.
Arguments Build_world {Store} _ _.

(** The request after the chains of a route ran over it in order. *)
Definition validated (cs : list chain) (req : request) : request :=
  fold_left (fun r c => fst (run false c r)) cs req.

(** The errors the chains of a route report when run in order, each on the
    request its predecessors left. *)
Fixpoint collect (cs : list chain) (req : request) : list validation_error :=
  match cs with
  | [] => []
  | c :: cs' => (snd (run false c req) ++ collect cs' (fst (run false c req)))%list
  end.

(** ** Sample collaborators and requests

    Concrete vocabularies, a concrete store and concrete messages, on which
    the statements below are evaluated. *)

Module Sample.

Definition vocabulary (keys : list string) : value :=
  VObj (map (fun k => (k, VStr k)) keys).

Definition difficulty : value := vocabulary ["easy"; "medium"; "hard"].
Definition media : value := vocabulary ["image"; "video"].
Definition taste : value := vocabulary ["sweet"; "salty"; "sour"].
Definition unit : value := vocabulary ["g"; "kg"; "ml"; "l"; "pcs"].

Definition known (id : string) (ids : list string) : bool := existsb (String.eqb id) ids.

Definition record_not_found : value :=
  VStr "P2025: Record to delete does not exist.".

Definition assigned_id : string := "ckz3f1a2b0000x9y8w7v6u5t4".

(** A store that keeps the ids of its recipes.  Like Prisma's [delete], it
    rejects the deletion of a record that does not exist; a lookup of an
    unknown id resolves with null. *)
Definition prisma_like (c : store_call) (ids : list string) : settled * list string :=
  match c with
  | GetAllRecipes _ => (Resolved (VArr (map (fun i => VObj [("id", VStr i)]) ids)), ids)
  | GetRecipe (VStr id) =>
      (Resolved (if known id ids then VObj [("id", VStr id)] else VNull), ids)
  | GetRecipe _ => (Resolved VNull, ids)
  | CreateRecipe (VObj props) =>
      (Resolved (VObj (("id", VStr assigned_id) :: props)), assigned_id :: ids)
  | CreateRecipe _ => (Rejected (VStr "invalid data"), ids)
  | RecipesDelete (VObj [("where", VObj [("id", VStr id)])]) =>
      if known id ids
      then (Resolved (VObj [("id", VStr id)]),
            filter (fun i => negb (String.eqb id i)) ids)
      else (Rejected record_not_found, ids)
  | RecipesDelete _ => (Rejected record_not_found, ids)
  end.

Definition with_id (id : string) : message :=
  {| msg_body := VObj []; msg_cookies := VObj []; msg_headers := VObj [];
     msg_params := VObj [("id", VStr id)]; msg_query := VObj [] |}.

Definition with_query (q : list (string * value)) : message :=
  {| msg_body := VObj []; msg_cookies := VObj []; msg_headers := VObj [];
     msg_params := VObj []; msg_query := VObj q |}.

Definition with_body (b : list (string * value)) : message :=
  {| msg_body := VObj b; msg_cookies := VObj []; msg_headers := VObj [];
     msg_params := VObj []; msg_query := VObj [] |}.

Definition id25 : string := "abcdefghijklmnopqrstuvwxy".

Definition soup : list (string * value) :=
  [("name", VStr "Soup"); ("description", VStr "A plain soup"); ("servings", VNum 4);
   ("time", VNum 30); ("reference", VStr "family"); ("difficulty", VStr "Easy");
   ("media", VStr "image"); ("taste", VStr "SALTY"); ("vegetarian", VBool true);
   ("ingredients",
    VArr [VObj [("name", VStr "Salt"); ("amount", VNum 1); ("unit", VStr "G")]]);
   ("author", VStr "someone")].

(** A body without [name], with a [servings] that is no number, a
    [difficulty] outside the vocabulary and an ingredient without unit. *)
Definition spoiled : list (string * value) :=
  [("description", VStr "A plain soup"); ("servings", VStr "four");
   ("time", VNum 30); ("reference", VStr "family"); ("difficulty", VStr "Mild");
   ("media", VStr "image"); ("taste", VStr "salty"); ("vegetarian", VBool true);
   ("ingredients", VArr [VObj [("name", VStr "Salt"); ("amount", VNum 1)]])].

Definition empty_store : world (list string) := {| store := []; trace := [] |}.

Definition one_recipe : world (list string) := {| store := [id25]; trace := [] |}.

End Sample.

Section Controller.

(** The vocabularies of [config/models], objects of which the controller
    reads the keys only. *)
Variables difficulty media taste unit : value.

(** The record store behind [recipe.service] and [prisma]: its state, and
    how it settles each call. *)
Variable Store : Type.
Variable settle : store_call -> Store -> settled * Store.

Local Abbreviation world := (world Store).

(** Handlers run in a state-and-exception monad over the world. *)
Definition io (A : Type) : Type := world -> (A + exception) * world.

Definition ret {A : Type} (a : A) : io A := fun w => (inl a, w).

Definition throw {A : Type} (e : exception) : io A := fun w => (inr e, w).

Definition bind {A B : Type} (c : io A) (k : A -> io B) : io B :=
  fun w =>
    match c w with
    | (inl a, w') => k a w'
    | (inr e, w') => (inr e, w')
    end.

Notation "x <- c ;; k" := (bind c (fun x => k))
  (at level 61, c at next level, right associativity).
Notation "c ;; k" := (bind c (fun _ => k))
  (at level 61, right associativity).

Definition emit (e : event) : io Datatypes.unit :=
  fun w => (inl tt, {| store := store w; trace := (trace w ++ [e])%list |}).

(** Modelled from the spec: [requestLogger] of [config/winston], of which
    the specification says that it logs the request and returns nothing. *)
Definition requestLogger (req : request) : io Datatypes.unit := emit (Logged req).

(** [await] on a store call: the call is observed, the store moves on, and
    a rejection is thrown. *)
Definition await (c : store_call) : io value :=
  fun w =>
    let '(result, s') := settle c (store w) in
    let w' := {| store := s'; trace := (trace w ++ [Called c])%list |} in
    match result with
    | Resolved v => (inl v, w')
    | Rejected reason => (inr (Rejection reason), w')
    end.

(** Modelled from the spec: the functions of [services/recipe.service] and
    the [delete] of the Prisma client, which the specification describes as
    operations of the record store that return its answer or raise its
    failure. *)
Definition getAllRecipes (filter : value) : io value := await (GetAllRecipes filter).
Definition getRecipe (id : value) : io value := await (GetRecipe id).
Definition createRecipe (data : value) : io value := await (CreateRecipe data).
Definition prisma_recipes_delete (args : value) : io value := await (RecipesDelete args).

Definition res_json (v : value) : io step := ret (Sent {| status := 200; sent := Json v |}).
Definition res_send (s : string) : io step := ret (Sent {| status := 200; sent := Text s |}).
Definition res_status_send (code : Z) (s : string) : io step :=
  ret (Sent {| status := code; sent := Text s |}).

Definition middleware : Type := request -> io step.

(** A validation chain used as middleware runs on the request and calls
    [next()]. *)
Definition validation (c : chain) : middleware :=
  fun req => ret (Next (fst (run false c req))).

Definition FilterValidation : list chain := [
  query "name" |> if_ (query "name" |> exists_) |> isString;
  query "servings" |> if_ (query "servings" |> exists_) |> isNumeric |> toInt;
  query "time" |> if_ (query "time" |> exists_) |> isNumeric |> toInt;
  query "reference" |> if_ (query "reference" |> exists_) |> isString;
  query "difficulty" |> if_ (query "difficulty" |> exists_) |> toLowerCase
    |> isIn (Object_keys difficulty);
  query "media" |> if_ (query "media" |> exists_) |> toLowerCase
    |> isIn (Object_keys media);
  query "taste" |> if_ (query "taste" |> exists_) |> toLowerCase
    |> isIn (Object_keys taste);
  query "vegetarian" |> if_ (query "vegetarian" |> exists_) |> isBoolean |> toBoolean
].

Definition throwIfInvalid : middleware :=
  fun req =>
    let result := validationResult req in
    match result with
    | [] => ret (Next req)
    | _ :: _ => throw (ValidationException result)
    end.

(** get all/filtered recipes *)
Definition get_recipes : middleware :=
  fun req =>
    requestLogger req ;;
    result <- getAllRecipes (matchedData req) ;;
    res_json result.

(** get recipe detail *)
Definition get_recipe_validation : list chain := [
  param "id" |> isLength 25 25
].

Definition get_recipe : middleware :=
  fun req =>
    requestLogger req ;;
    result <- getRecipe (get_key (matchedData req) "id") ;;
    if negb (truthy result) then res_status_send 404 "Entity not found"
    else res_json result.

Definition RecipeValidation : list chain := [
  body "name" |> isString;
  body "description" |> isString;
  body "servings" |> isNumeric;
  body "time" |> isNumeric;
  body "reference" |> isString;
  body "difficulty" |> toLowerCase |> isIn (Object_keys difficulty);
  body "media" |> toLowerCase |> isIn (Object_keys media);
  body "taste" |> toLowerCase |> isIn (Object_keys taste);
  body "vegetarian" |> isBoolean;

  check "ingredients.*.name" |> isString;
  check "ingredients.*.amount" |> isNumeric;
  check "ingredients.*.unit" |> toLowerCase |> isIn (Object_keys unit)
].

(** create recipe *)
Definition post_recipe : middleware :=
  fun req =>
    requestLogger req ;;
    result <- createRecipe (at_location req Body) ;;
    res_json result.

(** delete recipe *)
Definition delete_recipe_validation : list chain := [
  param "id" |> trim |> isLength 25 25
].

Definition delete_recipe : middleware :=
  fun req =>
    requestLogger req ;;
    _ <- prisma_recipes_delete
           (VObj [("where", VObj [("id", get_key (matchedData req) "id")])]) ;;
    res_send "Success".

(** *** Routing *)

Definition validations (op : operation) : list chain :=
  match op with
  | ListRecipes => FilterValidation
  | GetRecipeById => get_recipe_validation
  | CreateNewRecipe => RecipeValidation
  | DeleteRecipe => delete_recipe_validation
  end.

Definition handler (op : operation) : middleware :=
  match op with
  | ListRecipes => get_recipes
  | GetRecipeById => get_recipe
  | CreateNewRecipe => post_recipe
  | DeleteRecipe => delete_recipe
  end.

(** The middleware stack a route registers: its chains, [throwIfInvalid],
    its handler. *)
Definition route (op : operation) : list middleware :=
  (map validation (validations op) ++ [throwIfInvalid; handler op])%list.

(** Express runs the stack in order until a middleware sends a response or
    throws; [None] is a stack that ended on [next()]. *)
Fixpoint dispatch (stack : list middleware) (req : request) : io (option response) :=
  match stack with
  | [] => ret None
  | m :: rest =>
      s <- m req ;;
      match s with
      | Next req' => dispatch rest req'
      | Sent r => ret (Some r)
      end
  end.

Definition handle (op : operation) (m : message) : io (option response) :=
  dispatch (route op) (incoming m).

(** The store call an operation delegates to, given the validated request. *)
Definition delegation (op : operation) (req : request) : store_call :=
  match op with
  | ListRecipes => GetAllRecipes (matchedData req)
  | GetRecipeById => GetRecipe (get_key (matchedData req) "id")
  | CreateNewRecipe => CreateRecipe (at_location req Body)
  | DeleteRecipe =>
      RecipesDelete (VObj [("where", VObj [("id", get_key (matchedData req) "id")])])
  end.

(** What a handler sends once the store resolved with [v]. *)
Definition reply (op : operation) (v : value) : response :=
  match op with
  | ListRecipes | CreateNewRecipe => {| status := 200; sent := Json v |}
  | GetRecipeById =>
      if truthy v then {| status := 200; sent := Json v |}
      else {| status := 404; sent := Text "Entity not found" |}
  | DeleteRecipe => {| status := 200; sent := Text "Success" |}
  end.

(** *** Notions used in the statements below *)

(** The world after a handler logged the request and the store settled
    the call [c]. *)
Definition after (w : world) (req : request) (c : store_call) : world :=
  {| store := snd (settle c (store w));
     trace := trace w ++ [Logged req; Called c] |}.

(** The error express-validator reports for the id of a route. *)
Definition invalid_id (v : value) : validation_error :=
  {| e_value := v; e_msg := "Invalid value"; e_param := ["id"]; e_location := Params |}.

(** The error reported for the string [s] at an enumerated field: the value
    it shows is the lower-case form, the chain having lowered it first. *)
Definition enum_error (l : location) (p : list string) (s : string) : validation_error :=
  {| e_value := VStr (Js.toLowerCase s); e_msg := "Invalid value"; e_param := p;
     e_location := l |}.

(** The fields of the chains of [FilterValidation]. *)
Definition filter_fields : list string :=
  ["name"; "servings"; "time"; "reference"; "difficulty"; "media"; "taste"; "vegetarian"].

(** The fields the create route requires of the body: those of the [body]
    chains of [RecipeValidation]. *)
Definition required_fields : list string :=
  ["name"; "description"; "servings"; "time"; "reference";
   "difficulty"; "media"; "taste"; "vegetarian"].

(** The properties of the body the chains of [RecipeValidation] look at. *)
Definition validated_fields : list string := required_fields ++ ["ingredients"].

(** The enumerated fields the list and create routes share, with their
    vocabulary. *)
Definition enumerated_fields : list (string * value) :=
  [("difficulty", difficulty); ("media", media); ("taste", taste)].

(** The last chain of [RecipeValidation]. *)
Definition unit_chain : chain :=
  check "ingredients.*.unit" |> toLowerCase |> isIn (Object_keys unit).

(** *** Notions used in the proofs *)

(** What identifies an instance: its location and its path. *)
Definition ikey (i : field_instance) : location * list string := (i_location i, i_path i).

Definition key_of (x : field_instance * bool) : location * list string := ikey (fst x).

(** All the instances have a path that starts with the key [f]. *)
Definition headed (f : string) (insts : list (field_instance * bool)) : Prop :=
  Forall (fun x => exists p, i_path (fst x) = f :: p) insts.

(** The first key of the field of a chain, in whatever location. *)
Definition head_key (c : chain) : option string :=
  match toPath (field c), toPath (Js.toLowerCase (field c)) with
  | Key f :: _, Key g :: _ => if f =? g then Some f else None
  | _, _ => None
  end.

(** The chain reports an error whenever the body lacks the field [f]. *)
Definition fails_when_missing (c : chain) (f : string) : Prop :=
  forall req, get_key (at_location req Body) f = VUndef -> snd (run false c req) <> [].

(** An instance after [toLowerCase]. *)
Definition lowered (i : field_instance) : field_instance :=
  {| i_location := i_location i; i_path := i_path i; i_value := lower (i_value i) |}.

(** The errors a standard validator adds for an instance. *)
Definition errors_of (validator : string -> bool) (i : field_instance)
  : list validation_error :=
  flat_map (fun v => if validator (toString v) then [] else [error_at i v])
           (wrapped (i_value i)).

(** The request holds the value of the instance at its path. *)
Definition synced (req : request) (i : field_instance) : Prop :=
  get (at_location req (i_location i)) (i_path i) = i_value i.

(** The context a chain over one field of one location leaves. *)
Definition single_context (c : chain) (ctx : context) : Prop :=
  exists l v,
    locations c = [l]
    /\ ctx = {| c_field := field c;
                c_instances := [{| i_location := l; i_path := [field c]; i_value := v |}];
                c_errors := c_errors ctx |}.

(** *** Notions used in the further properties *)

(** The item [.if(query(f).exists())] adds. *)
Definition present (f : string) : item :=
  ContextCondition
    (fun req => match snd (run true (query f |> exists_) req) with [] => true | _ => false end).

(** The instance a chain over the field [f] of the location [l] starts from. *)
Definition instance_at (req : request) (l : location) (f : string) : field_instance :=
  {| i_location := l; i_path := [f]; i_value := get_key (at_location req l) f |}.

(** An item that validates and changes nothing. *)
Definition is_validation (it : item) : bool :=
  match it with
  | CustomValidation _ | StandardValidation _ => true
  | _ => false
  end.

Definition validates_only (c : chain) : bool := forallb is_validation (stack c).

(** The error reported for a field the body does not have. *)
Definition missing_error (f : string) : validation_error :=
  {| e_value := VUndef; e_msg := "Invalid value"; e_param := [f]; e_location := Body |}.

(** The chain reports [missing_error f] whenever the body lacks [f]. *)
Definition reports_missing (c : chain) (f : string) : Prop :=
  forall req,
    get_key (at_location req Body) f = VUndef -> In (missing_error f) (snd (run false c req)).



(** The context of a chain over the field of one location, holding for its
    instance the value the request [final] has there. *)
Definition context_of (final : request) (l : location) (c : chain) (ctx : context) : Prop :=
  ctx = {| c_field := field c;
           c_instances := [{| i_location := l; i_path := [field c];
                              i_value := get_key (at_location final l) (field c) |}];
           c_errors := c_errors ctx |}.

(** A chain over one field, named by one key, of the location [l]. *)
Definition over_one_field (l : location) (c : chain) : Prop :=
  toPath (field c) = [Key (field c)] /\ locations c = [l]
  /\ head_key c = Some (field c).

(** ** Properties of the pipeline *)

Lemma dispatch_validations (cs : list chain) (rest : list middleware)
    (req : request) (w : world) :
  dispatch (map validation cs ++ rest) req w = dispatch rest (validated cs req) w.
Proof.
  revert req; induction cs as [|c cs IH]; intros req; simpl; [reflexivity|].
  unfold bind at 1, validation at 1, ret at 1. apply IH.
Qed.

Lemma handler_runs (op : operation) (req : request) (w : world) :
  handler op req w =
  let w1 := {| store := store w; trace := trace w ++ [Logged req] |} in
  let c := delegation op req in
  let w2 := {| store := snd (settle c (store w1)); trace := trace w1 ++ [Called c] |} in
  match fst (settle c (store w1)) with
  | Resolved v => (inl (Sent (reply op v)), w2)
  | Rejected reason => (inr (Rejection reason), w2)
  end.
Proof.
  destruct op; cbn -[matchedData get_key at_location];
    unfold bind, requestLogger, emit, getAllRecipes, getRecipe, createRecipe,
      prisma_recipes_delete, await; cbn -[matchedData get_key at_location];
    match goal with |- context [settle ?c ?s] => destruct (settle c s) as [[v|r] s'] end;
    cbn -[matchedData get_key at_location]; try reflexivity.
  destruct (truthy v); reflexivity.
Qed.

(** Only the message changes while a chain runs over its instances; the
    contexts are appended to at the end of the run. *)
Lemma write_back_contexts (req : request) (l : location) (p : list string) (v : value) :
  req_contexts (write_back req l p v) = req_contexts req.
Proof.
  unfold write_back. destruct (value_eqb _ _); [reflexivity|].
  destruct p; reflexivity.
Qed.

Lemma run_instances_contexts (dry : bool) (it : item) (todo : list (field_instance * bool))
    (req : request) (errors : list validation_error) :
  req_contexts (fst (fst (run_instances dry it req errors todo))) = req_contexts req.
Proof.
  revert req errors; induction todo as [|[i halted] todo IH]; intros req errors; simpl;
    [reflexivity|].
  destruct halted.
  - specialize (IH req errors).
    destruct (run_instances dry it req errors todo) as [[r e] d]; exact IH.
  - destruct (run_item it req i) as [[v es]|].
    + specialize (IH (if dry then req else write_back req (i_location i) (i_path i) v)
                     (errors ++ es)%list).
      destruct (run_instances dry it _ _ todo) as [[r e] d]; simpl in *.
      rewrite IH. destruct dry; [reflexivity | apply write_back_contexts].
    + specialize (IH req errors).
      destruct (run_instances dry it req errors todo) as [[r e] d]; exact IH.
Qed.

Lemma run_stack_contexts (dry : bool) (items : list item) (st : run_state) :
  req_contexts (fst (fst (run_stack dry items st))) = req_contexts (fst (fst st)).
Proof.
  revert st; induction items as [|it items IH]; intros [[req errors] insts]; simpl;
    [reflexivity|].
  rewrite IH. apply run_instances_contexts.
Qed.

Lemma run_contexts (c : chain) (req : request) :
  exists insts,
    req_contexts (fst (run false c req)) =
    (req_contexts req
       ++ [{| c_field := field c; c_instances := insts;
              c_errors := snd (run false c req) |}])%list.
Proof.
  unfold run.
  pose proof (run_stack_contexts false (stack c)
                (req, [], map (fun i => (i, false)) (selectFields req (field c) (locations c))))
    as H.
  destruct (run_stack false (stack c) _) as [[r e] d]; simpl in *.
  exists (map fst d). rewrite H. reflexivity.
Qed.

Lemma validationResult_run (c : chain) (req : request) :
  validationResult (fst (run false c req)) =
  (validationResult req ++ snd (run false c req))%list.
Proof.
  destruct (run_contexts c req) as [insts H].
  unfold validationResult. rewrite H, flat_map_app. simpl. now rewrite app_nil_r.
Qed.

Lemma validationResult_validated (cs : list chain) (req : request) :
  validationResult (validated cs req) = (validationResult req ++ collect cs req)%list.
Proof.
  revert req; induction cs as [|c cs IH]; intros req; simpl.
  - now rewrite app_nil_r.
  - unfold validated in *. simpl. rewrite IH, validationResult_run. now rewrite app_assoc.
Qed.

(** What a route does with a message: the errors collected by its chains
    are thrown before anything else happens; without errors the handler runs
    on the validated request. *)
Lemma handle_spec (op : operation) (m : message) (w : world) :
  handle op m w =
  match collect (validations op) (incoming m) with
  | [] =>
      match handler op (validated (validations op) (incoming m)) w with
      | (inl (Sent r), w') => (inl (Some r), w')
      | (inl (Next _), w') => (inl None, w')
      | (inr e, w') => (inr e, w')
      end
  | errors => (inr (ValidationException errors), w)
  end.
Proof.
  unfold handle, route. rewrite dispatch_validations.
  cbn [dispatch]. unfold bind at 1, throwIfInvalid.
  rewrite validationResult_validated. cbn [incoming validationResult req_contexts flat_map app].
  destruct (collect (validations op) (incoming m)) as [|e es]; [|reflexivity].
  cbn [ret]. unfold bind.
  destruct (handler op _ w) as [[[req'|r]|e] w']; reflexivity.
Qed.

Lemma handle_accepts (op : operation) (m : message) (w : world) :
  collect (validations op) (incoming m) = [] ->
  let req := validated (validations op) (incoming m) in
  let c := delegation op req in
  handle op m w =
  match fst (settle c (store w)) with
  | Resolved v => (inl (Some (reply op v)), after w req c)
  | Rejected reason => (inr (Rejection reason), after w req c)
  end.
Proof.
  intros H. rewrite handle_spec, H, handler_runs. cbn zeta. unfold after.
  cbn [store trace]. rewrite <- app_assoc. cbn [app].
  destruct (fst (settle _ (store w))); reflexivity.
Qed.

Lemma handle_rejects (op : operation) (m : message) (w : world) :
  collect (validations op) (incoming m) <> [] ->
  handle op m w = (inr (ValidationException (collect (validations op) (incoming m))), w).
Proof.
  intros H. rewrite handle_spec.
  destruct (collect (validations op) (incoming m)); [congruence | reflexivity].
Qed.

Lemma collect_incoming (cs : list chain) (m : message) :
  validationResult (validated cs (incoming m)) = collect cs (incoming m).
Proof. now rewrite validationResult_validated. Qed.

(** *** Getting and setting properties *)

Lemma assoc_set_same (k : string) (x : value) (props : list (string * value)) :
  assoc k (assoc_set k x props) = x.
Proof.
  induction props as [|[k' v] props IH]; simpl.
  - now rewrite String.eqb_refl.
  - destruct (k =? k') eqn:E; simpl; rewrite E; auto.
Qed.

Lemma assoc_set_other (k k' : string) (x : value) (props : list (string * value)) :
  k <> k' -> assoc k (assoc_set k' x props) = assoc k props.
Proof.
  intros Hk. apply String.eqb_neq in Hk.
  induction props as [|[k2 v] props IH]; simpl.
  - now rewrite Hk.
  - destruct (k' =? k2) eqn:E; simpl.
    + apply String.eqb_eq in E; subst k2. now rewrite Hk.
    + destruct (k =? k2); auto.
Qed.

Lemma nth_set_same (i : nat) (x : value) (l : list value) :
  nth i (nth_set i x l) VUndef = x.
Proof.
  revert l; induction i as [|i IH]; intros [|y l]; simpl; auto.
Qed.

Lemma nth_set_other (i j : nat) (x : value) (l : list value) :
  i <> j -> nth j (nth_set i x l) VUndef = nth j l VUndef.
Proof.
  revert j l; induction i as [|i IH]; intros [|j] [|y l] Hij; simpl; auto;
    try congruence.
  - now destruct j.
  - rewrite IH by congruence. now destruct j.
Qed.

Lemma index_of_key_sound (k : string) (i : nat) :
  index_of_key k = Some i -> k = key_of_index i.
Proof.
  unfold index_of_key. destruct (NilZero.uint_of_string k) as [u|]; [|discriminate].
  destruct (key_of_index (Nat.of_uint u) =? k) eqn:E; [|discriminate].
  intros [= <-]. apply String.eqb_eq in E. now symmetry.
Qed.

Lemma get_key_set_key_same (v : value) (k : string) (x : value) :
  get_key v k <> VUndef -> get_key (set_key v k x) k = x.
Proof.
  destruct v; simpl; try congruence.
  - destruct (index_of_key k) as [i|] eqn:E; [|congruence].
    intros _. simpl. rewrite E. apply nth_set_same.
  - intros _. apply assoc_set_same.
Qed.

Lemma get_key_set_key_other (v : value) (k k' : string) (x : value) :
  k <> k' -> get_key (set_key v k' x) k = get_key v k.
Proof.
  intros Hk. destruct v; simpl; auto.
  - destruct (index_of_key k') as [i|] eqn:E'; [|reflexivity]. simpl.
    destruct (index_of_key k) as [j|] eqn:E; [|reflexivity].
    apply nth_set_other. intros ->.
    apply index_of_key_sound in E, E'. congruence.
  - now apply assoc_set_other.
Qed.

Lemma get_key_set_other (v : value) (k k' : string) (p : list string) (x : value) :
  k <> k' -> get_key (set v (k' :: p) x) k = get_key v k.
Proof.
  intros Hk. unfold set. destruct (isObjectLike v); [|reflexivity].
  simpl. now apply get_key_set_key_other.
Qed.

(** *** What a chain leaves alone

    The instances of a chain keep their location and path, and its write
    backs stay under the first key of its field. *)

Lemma at_with_location (req : request) (l l' : location) (v : value) :
  at_location (with_location req l v) l' =
  if location_eqb l l' then v else at_location req l'.
Proof. destruct l, l'; reflexivity. Qed.

Lemma write_back_frame (req : request) (l l' : location) (f k : string)
    (p : list string) (v : value) :
  k <> f ->
  get_key (at_location (write_back req l (f :: p) v) l') k = get_key (at_location req l') k.
Proof.
  intros Hk. unfold write_back. destruct (value_eqb _ _); [reflexivity|].
  rewrite at_with_location. destruct (location_eqb l l') eqn:E; [|reflexivity].
  assert (l = l') as <- by (destruct l, l'; (reflexivity || discriminate)).
  now apply get_key_set_other.
Qed.

Lemma run_instances_keys (dry : bool) (it : item) (todo : list (field_instance * bool))
    (req : request) (errors : list validation_error) :
  map key_of (snd (run_instances dry it req errors todo)) = map key_of todo.
Proof.
  revert req errors; induction todo as [|[i halted] todo IH]; intros req errors; simpl;
    [reflexivity|].
  destruct halted.
  - specialize (IH req errors).
    destruct (run_instances dry it req errors todo) as [[r e] d]; simpl in *. now rewrite IH.
  - destruct (run_item it req i) as [[v es]|].
    + specialize (IH (if dry then req else write_back req (i_location i) (i_path i) v)
                     (errors ++ es)).
      destruct (run_instances dry it _ _ todo) as [[r e] d]; simpl in *. now rewrite IH.
    + specialize (IH req errors).
      destruct (run_instances dry it req errors todo) as [[r e] d]; simpl in *. now rewrite IH.
Qed.

Lemma run_stack_keys (dry : bool) (items : list item) (st : run_state) :
  map key_of (snd (run_stack dry items st)) = map key_of (snd st).
Proof.
  revert st; induction items as [|it items IH]; intros [[req errors] insts]; simpl;
    [reflexivity|].
  rewrite IH. apply run_instances_keys.
Qed.

Lemma headed_keys (f : string) (a b : list (field_instance * bool)) :
  map key_of a = map key_of b -> headed f b -> headed f a.
Proof.
  revert b; induction a as [|x a IH]; intros [|y b] E H; try discriminate; constructor.
  - inversion H as [|? ? [p Hp] ?]; subst. simpl in E.
    assert (E1 : key_of x = key_of y) by congruence.
    exists p. unfold key_of, ikey in E1.
    assert (i_path (fst x) = i_path (fst y)) by congruence.
    congruence.
  - inversion H; subst. simpl in E. assert (E2 : map key_of a = map key_of b) by congruence.
    eapply IH; eauto.
Qed.

Lemma run_instances_frame (it : item) (f k : string) (l : location)
    (todo : list (field_instance * bool)) (req : request) (errors : list validation_error) :
  k <> f -> headed f todo ->
  get_key (at_location (fst (fst (run_instances false it req errors todo))) l) k =
  get_key (at_location req l) k.
Proof.
  intros Hk. revert req errors; induction todo as [|[i halted] todo IH];
    intros req errors H; simpl; [reflexivity|].
  inversion H as [|? ? [p Hp] H']; subst. simpl in Hp.
  destruct halted.
  - specialize (IH req errors H').
    destruct (run_instances false it req errors todo) as [[r e] d]; exact IH.
  - destruct (run_item it req i) as [[v es]|].
    + specialize (IH (write_back req (i_location i) (i_path i) v) (errors ++ es) H').
      destruct (run_instances false it _ _ todo) as [[r e] d]; simpl in *.
      rewrite IH, Hp. now apply write_back_frame.
    + specialize (IH req errors H').
      destruct (run_instances false it req errors todo) as [[r e] d]; exact IH.
Qed.

Lemma run_stack_frame (items : list item) (f k : string) (l : location) (st : run_state) :
  k <> f -> headed f (snd st) ->
  get_key (at_location (fst (fst (run_stack false items st))) l) k =
  get_key (at_location (fst (fst st)) l) k.
Proof.
  intros Hk. revert st; induction items as [|it items IH];
    intros [[req errors] insts] H; simpl in *; [reflexivity|].
  rewrite IH.
  - now apply run_instances_frame with (f := f).
  - eapply headed_keys; [apply run_instances_keys | exact H].
Qed.

Lemma uniqWith_In {A : Type} (same : A -> A -> bool) (l seen : list A) (x : A) :
  In x (uniqWith same seen l) -> In x l.
Proof.
  revert seen; induction l as [|y l IH]; intros seen H; simpl in *; [exact H|].
  destruct (existsb _ seen).
  - right. eapply IH; eauto.
  - destruct H as [H|H]; [now left | right; eapply IH; eauto].
Qed.

Lemma selectFields_headed (req : request) (fld f : string) (rest rest' : list segment)
    (locs : list location) :
  toPath fld = Key f :: rest ->
  toPath (Js.toLowerCase fld) = Key f :: rest' ->
  headed f (map (fun i => (i, false)) (selectFields req fld locs)).
Proof.
  intros E E'. unfold headed, selectFields.
  apply Forall_forall. intros x Hx.
  apply in_map_iff in Hx as [i [<- Hi]].
  apply uniqWith_In in Hi.
  apply in_flat_map in Hi as [l [_ Hi]]. unfold expandField in Hi.
  assert (P : exists r, toPath (pathToExpand l fld) = Key f :: r)
    by (destruct l; simpl; eauto).
  destruct P as [r P]. rewrite P in Hi.
  apply in_map_iff in Hi as [p [<- Hp]]. simpl in Hp.
  apply in_map_iff in Hp as [p' [<- _]]. simpl. now exists p'.
Qed.

Lemma run_frame (c : chain) (f k : string) (l : location) (req : request) :
  head_key c = Some f -> k <> f ->
  get_key (at_location (fst (run false c req)) l) k = get_key (at_location req l) k.
Proof.
  unfold head_key. destruct (toPath (field c)) as [|[f'|] rest] eqn:E; try discriminate.
  destruct (toPath (Js.toLowerCase (field c))) as [|[g|] rest'] eqn:E'; try discriminate.
  destruct (f' =? g) eqn:G; [|discriminate]. apply String.eqb_eq in G. subst g.
  intros [= ->] Hk. unfold run.
  pose proof (run_stack_frame (stack c) f k l
                (req, [], map (fun i => (i, false)) (selectFields req (field c) (locations c)))
                Hk (selectFields_headed req _ _ _ _ _ E E')) as H.
  destruct (run_stack false (stack c) _) as [[r e] d]; simpl in *. exact H.
Qed.

Lemma validated_frame (cs : list chain) (k : string) (l : location) (req : request) :
  Forall (fun c => exists f, head_key c = Some f /\ k <> f) cs ->
  get_key (at_location (validated cs req) l) k = get_key (at_location req l) k.
Proof.
  revert req; induction cs as [|c cs IH]; intros req H; [reflexivity|].
  inversion H as [|? ? [f [Hf Hk]] H']; subst.
  unfold validated in *. simpl. rewrite IH by exact H'.
  now apply run_frame with (f := f).
Qed.

(** *** The id of the detail and delete routes *)

Lemma string_eqb_refl (s : string) : (s =? s) = true.
Proof. apply String.eqb_refl. Qed.

Lemma get_recipe_validation_run (m : message) (s : string) :
  get_key (msg_params m) "id" = VStr s ->
  run false (param "id" |> isLength 25 25) (incoming m) =
  let errors :=
    if Validator.isLength 25 25 s then []
    else [{| e_value := VStr s; e_msg := "Invalid value"; e_param := ["id"];
             e_location := Params |}] in
  ({| req_message := m;
      req_contexts :=
        [{| c_field := "id";
            c_instances := [{| i_location := Params; i_path := ["id"]; i_value := VStr s |}];
            c_errors := errors |}] |},
   errors).
Proof.
  intros H. unfold run.
  cbn -[Validator.isLength value_eqb get_key].
  rewrite H. cbn -[Validator.isLength value_eqb get_key].
  unfold write_back. cbn -[Validator.isLength get_key]. rewrite H.
  cbn -[Validator.isLength get_key]. rewrite string_eqb_refl.
  destruct (Validator.isLength 25 25 s); reflexivity.
Qed.

Lemma delete_recipe_validation_run (m : message) (s : string) :
  get_key (msg_params m) "id" = VStr s ->
  let errors :=
    if Validator.isLength 25 25 (Validator.trim s) then []
    else [{| e_value := VStr (Validator.trim s); e_msg := "Invalid value";
             e_param := ["id"]; e_location := Params |}] in
  snd (run false (param "id" |> trim |> isLength 25 25) (incoming m)) = errors
  /\ req_contexts (fst (run false (param "id" |> trim |> isLength 25 25) (incoming m))) =
     [{| c_field := "id";
         c_instances :=
           [{| i_location := Params; i_path := ["id"]; i_value := VStr (Validator.trim s) |}];
         c_errors := errors |}].
Proof.
  intros H. unfold run.
  cbn -[Validator.isLength Validator.trim value_eqb get_key set].
  rewrite H. cbn -[Validator.isLength Validator.trim value_eqb get_key set].
  unfold write_back at 2. cbn -[Validator.isLength Validator.trim get_key set].
  rewrite H. cbn -[Validator.isLength Validator.trim get_key set].
  destruct (s =? Validator.trim s) eqn:E.
  - unfold write_back. cbn -[Validator.isLength Validator.trim get_key set].
    rewrite H. cbn -[Validator.isLength Validator.trim get_key set]. rewrite E.
    destruct (Validator.isLength 25 25 (Validator.trim s)); split; reflexivity.
  - unfold write_back. cbn -[Validator.isLength Validator.trim get_key set].
    unfold set. replace (isObjectLike (msg_params m)) with true
      by (destruct (msg_params m); simpl in H; try discriminate; reflexivity).
    cbn -[Validator.isLength Validator.trim get_key set_key].
    rewrite get_key_set_key_same by (rewrite H; discriminate).
    cbn -[Validator.isLength Validator.trim get_key set_key].
    rewrite string_eqb_refl.
    destruct (Validator.isLength 25 25 (Validator.trim s)); split; reflexivity.
Qed.

Lemma isLength_25 (s : string) :
  Validator.isLength 25 25 s = true <-> String.length s = 25.
Proof.
  unfold Validator.isLength. rewrite andb_true_iff, !Nat.leb_le. lia.
Qed.

Lemma get_recipe_collect (m : message) (s : string) :
  get_key (msg_params m) "id" = VStr s ->
  collect get_recipe_validation (incoming m) =
  if Validator.isLength 25 25 s then [] else [invalid_id (VStr s)].
Proof.
  intros H. unfold get_recipe_validation, collect.
  rewrite (get_recipe_validation_run m s H). cbn [snd].
  rewrite app_nil_r. reflexivity.
Qed.

Lemma get_recipe_delegation (m : message) (s : string) :
  get_key (msg_params m) "id" = VStr s ->
  Validator.isLength 25 25 s = true ->
  delegation GetRecipeById (validated get_recipe_validation (incoming m)) = GetRecipe (VStr s).
Proof.
  intros H L. unfold validated, get_recipe_validation. cbn [fold_left].
  rewrite (get_recipe_validation_run m s H), L. reflexivity.
Qed.

Lemma delete_recipe_collect (m : message) (s : string) :
  get_key (msg_params m) "id" = VStr s ->
  collect delete_recipe_validation (incoming m) =
  if Validator.isLength 25 25 (Validator.trim s) then []
  else [invalid_id (VStr (Validator.trim s))].
Proof.
  intros H. unfold delete_recipe_validation, collect.
  destruct (delete_recipe_validation_run m s H) as [-> _].
  rewrite app_nil_r. reflexivity.
Qed.

Lemma delete_recipe_delegation (m : message) (s : string) :
  get_key (msg_params m) "id" = VStr s ->
  Validator.isLength 25 25 (Validator.trim s) = true ->
  delegation DeleteRecipe (validated delete_recipe_validation (incoming m)) =
  RecipesDelete (VObj [("where", VObj [("id", VStr (Validator.trim s))])]).
Proof.
  intros H L. unfold validated, delete_recipe_validation. cbn [fold_left].
  destruct (delete_recipe_validation_run m s H) as [_ E].
  unfold delegation, matchedData. rewrite E, L. reflexivity.
Qed.

Lemma trimStart_length (s : string) :
  String.length (trimStart s) <= String.length s.
Proof.
  induction s as [|c s IH]; simpl; [lia|]. destruct (is_space c); simpl; lia.
Qed.

Lemma trimStart_same_length (s : string) :
  String.length (trimStart s) = String.length s -> trimStart s = s.
Proof.
  destruct s as [|c s]; simpl; [reflexivity|].
  destruct (is_space c); [|reflexivity].
  pose proof (trimStart_length s). lia.
Qed.

Lemma trimEnd_length (s : string) :
  String.length (trimEnd s) <= String.length s.
Proof.
  induction s as [|c s IH]; simpl; [lia|].
  destruct (trimEnd s); [destruct (is_space c)|]; simpl in *; lia.
Qed.

Lemma trimEnd_same_length (s : string) :
  String.length (trimEnd s) = String.length s -> trimEnd s = s.
Proof.
  induction s as [|c s IH]; simpl; [reflexivity|].
  pose proof (trimEnd_length s) as L.
  destruct (trimEnd s) as [|c' r] eqn:E.
  - destruct (is_space c); simpl in *; intros H; [lia|].
    destruct s; [reflexivity | simpl in H; lia].
  - simpl in *. intros H. rewrite IH by lia. reflexivity.
Qed.

Lemma trim_length (s : string) :
  String.length (Validator.trim s) <= String.length s.
Proof.
  unfold Validator.trim, Validator.rtrim, Validator.ltrim.
  pose proof (trimEnd_length (trimStart s)). pose proof (trimStart_length s). lia.
Qed.

Lemma trim_same_length (s : string) :
  String.length (Validator.trim s) = String.length s -> Validator.trim s = s.
Proof.
  unfold Validator.trim, Validator.rtrim, Validator.ltrim. intros H.
  pose proof (trimEnd_length (trimStart s)). pose proof (trimStart_length s).
  assert (E : trimStart s = s) by (apply trimStart_same_length; lia).
  rewrite E in *. now apply trimEnd_same_length.
Qed.

Lemma get_recipe_rejects (m : message) (s : string) (w : world) :
  get_key (msg_params m) "id" = VStr s ->
  String.length s <> 25 ->
  handle GetRecipeById m w = (inr (ValidationException [invalid_id (VStr s)]), w).
Proof.
  intros H L.
  assert (L' : Validator.isLength 25 25 s = false).
  { destruct (Validator.isLength 25 25 s) eqn:E; [|reflexivity].
    apply isLength_25 in E. contradiction. }
  rewrite handle_rejects; cbn [validations];
    rewrite (get_recipe_collect m s H), L'; [reflexivity | discriminate].
Qed.

Lemma collect_app (cs1 cs2 : list chain) (req : request) :
  collect (cs1 ++ cs2) req = collect cs1 req ++ collect cs2 (validated cs1 req).
Proof.
  revert req; induction cs1 as [|c cs1 IH]; intros req; simpl; [reflexivity|].
  rewrite IH, app_assoc. reflexivity.
Qed.

(** The errors of a route are the errors of each of its chains, run on the
    request as the chains before it left it. *)
Lemma collect_In (cs : list chain) (req : request) (e : validation_error) :
  In e (collect cs req) <->
  exists cs1 c cs2,
    cs = cs1 ++ c :: cs2 /\ In e (snd (run false c (validated cs1 req))).
Proof.
  split.
  - revert req; induction cs as [|c cs IH]; intros req H; simpl in H; [contradiction|].
    apply in_app_or in H as [H|H].
    + exists [], c, cs. split; [reflexivity | exact H].
    + destruct (IH _ H) as (cs1 & c' & cs2 & -> & H').
      exists (c :: cs1), c', cs2. split; [reflexivity | exact H'].
  - intros (cs1 & c & cs2 & -> & H). rewrite collect_app. apply in_or_app; right.
    simpl. apply in_or_app; left. exact H.
Qed.

(** *** Chains over a single field of one location *)

Lemma selectFields_single (req : request) (f : string) (l : location) :
  toPath f = [Key f] -> l <> Headers ->
  selectFields req f [l] =
  [{| i_location := l; i_path := [f]; i_value := get_key (at_location req l) f |}].
Proof.
  intros T N. unfold selectFields, expandField. cbn [flat_map].
  replace (pathToExpand l f) with f by (destruct l; (reflexivity || congruence)).
  rewrite T. reflexivity.
Qed.

Lemma isIn_spec (options : list string) (s : string) :
  Validator.isIn options s = true <-> In s options.
Proof.
  unfold Validator.isIn. rewrite existsb_exists. split.
  - intros [x [Hx E]]. apply String.eqb_eq in E. now subst.
  - intros H. exists s. split; [exact H | apply String.eqb_refl].
Qed.

Lemma isIn_false (options : list string) (s : string) :
  ~ In s options -> Validator.isIn options s = false.
Proof.
  intros H. destruct (Validator.isIn options s) eqn:E; [|reflexivity].
  apply isIn_spec in E. contradiction.
Qed.

Ltac run_single T H :=
  unfold run;
  cbn [field locations stack body query param addItem isString isNumeric isBoolean
       toLowerCase isIn if_ exists_ app];
  rewrite (selectFields_single _ _ _ T) by discriminate;
  cbn -[at_location get_key Validator.isIn Js.toLowerCase set];
  unfold write_back; cbn -[at_location get_key Validator.isIn Js.toLowerCase set];
  repeat (rewrite H; cbn -[at_location get_key Validator.isIn Js.toLowerCase set]).

Lemma isString_fails_when_missing (f : string) :
  toPath f = [Key f] -> fails_when_missing (body f |> isString) f.
Proof. intros T req H. run_single T H. discriminate. Qed.

Lemma isNumeric_fails_when_missing (f : string) :
  toPath f = [Key f] -> fails_when_missing (body f |> isNumeric) f.
Proof. intros T req H. run_single T H. discriminate. Qed.

Lemma isBoolean_fails_when_missing (f : string) :
  toPath f = [Key f] -> fails_when_missing (body f |> isBoolean) f.
Proof. intros T req H. run_single T H. discriminate. Qed.

Lemma isIn_fails_when_missing (f : string) (vocabulary : value) :
  toPath f = [Key f] -> ~ In "" (Object_keys vocabulary) ->
  fails_when_missing (body f |> toLowerCase |> isIn (Object_keys vocabulary)) f.
Proof.
  intros T V req H. run_single T H. rewrite (isIn_false _ _ V). discriminate.
Qed.

Lemma collect_missing (cs : list chain) (f : string) (req : request) :
  get_key (at_location req Body) f = VUndef ->
  Exists (fun c => fails_when_missing c f) cs ->
  Forall (fun c => fails_when_missing c f \/ exists g, head_key c = Some g /\ f <> g) cs ->
  collect cs req <> [].
Proof.
  revert req; induction cs as [|c cs IH]; intros req H E A; [inversion E|].
  inversion A as [|? ? [F|[g [G N]]] A']; subst; simpl.
  - specialize (F req H). destruct (snd (run false c req)); [congruence | discriminate].
  - inversion E as [? ? F|? ? E']; subst.
    + specialize (F req H). destruct (snd (run false c req)); [congruence | discriminate].
    + intros C. apply app_eq_nil in C as [_ C]. revert C. apply IH; auto.
      rewrite (run_frame c g f Body req G N). exact H.
Qed.

(** *** Enumerated fields *)

Lemma value_eqb_VStr (x : value) (t : string) :
  value_eqb x (VStr t) = true -> x = VStr t.
Proof.
  destruct x; simpl; try discriminate. intros E. apply String.eqb_eq in E. now subst.
Qed.

Lemma write_back_get (req : request) (l : location) (f t : string) :
  get_key (at_location req l) f <> VUndef ->
  get_key (at_location (write_back req l [f] (VStr t)) l) f = VStr t.
Proof.
  intros H. unfold write_back. destruct (value_eqb _ _) eqn:E.
  - apply value_eqb_VStr in E. exact E.
  - rewrite at_with_location.
    replace (location_eqb l l) with true by (destruct l; reflexivity).
    unfold set.
    replace (isObjectLike (at_location req l)) with true
      by (destruct (at_location req l); simpl in H; try congruence; reflexivity).
    simpl. now apply get_key_set_key_same.
Qed.

Lemma write_back_same (req : request) (l : location) (f t : string) :
  get_key (at_location req l) f = VStr t -> write_back req l [f] (VStr t) = req.
Proof.
  intros H. unfold write_back. simpl. rewrite H. simpl. now rewrite String.eqb_refl.
Qed.

Lemma enumerated_stack (req : request) (l : location) (f s : string) (keys : list string)
    (errors : list validation_error) :
  get_key (at_location req l) f = VStr s ->
  run_stack false [CustomSanitization lower; StandardValidation (Validator.isIn keys)]
    (req, errors, [({| i_location := l; i_path := [f]; i_value := VStr s |}, false)]) =
  (write_back req l [f] (VStr (Js.toLowerCase s)),
   errors ++ (if Validator.isIn keys (Js.toLowerCase s) then [] else [enum_error l [f] s]),
   [({| i_location := l; i_path := [f]; i_value := VStr (Js.toLowerCase s) |}, false)]).
Proof.
  intros H.
  cbn -[write_back Validator.isIn Js.toLowerCase].
  rewrite write_back_same
    by (apply write_back_get; rewrite H; discriminate).
  rewrite app_nil_r.
  destruct (Validator.isIn keys (Js.toLowerCase s)); reflexivity.
Qed.

Lemma run_stack_cons (dry : bool) (it : item) (items : list item) (req : request)
    (errors : list validation_error) (insts : list (field_instance * bool)) :
  run_stack dry (it :: items) (req, errors, insts) =
  run_stack dry items (run_instances dry it req errors insts).
Proof. reflexivity. Qed.

Lemma exists_passes (req : request) (f : string) (l : location) :
  toPath f = [Key f] -> l <> Headers -> get_key (at_location req l) f <> VUndef ->
  snd (run true (exists_ {| field := f; locations := [l]; stack := [] |}) req) = [].
Proof.
  intros T N H. unfold run. cbn [field locations stack exists_ addItem app].
  rewrite (selectFields_single _ _ _ T N).
  cbn -[at_location get_key].
  destruct (get_key (at_location req l) f); try reflexivity. congruence.
Qed.

Lemma enumerated_body_run (f : string) (vocabulary : value) (s : string) (req : request) :
  toPath f = [Key f] ->
  get_key (at_location req Body) f = VStr s ->
  let c := body f |> toLowerCase |> isIn (Object_keys vocabulary) in
  snd (run false c req) =
    (if Validator.isIn (Object_keys vocabulary) (Js.toLowerCase s) then []
     else [enum_error Body [f] s])
  /\ get_key (at_location (fst (run false c req)) Body) f = VStr (Js.toLowerCase s).
Proof.
  intros T H c. unfold c, run.
  cbn [field locations stack body addItem toLowerCase isIn app].
  rewrite (selectFields_single _ _ _ T) by discriminate. rewrite H. cbn [map].
  rewrite (enumerated_stack req Body f s _ [] H).
  split; [reflexivity|]. cbn [fst].
  apply (write_back_get req Body f). rewrite H. discriminate.
Qed.

Lemma enumerated_query_run (f : string) (vocabulary : value) (s : string) (req : request) :
  toPath f = [Key f] ->
  get_key (at_location req Query) f = VStr s ->
  let c := query f |> if_ (query f |> exists_) |> toLowerCase
             |> isIn (Object_keys vocabulary) in
  snd (run false c req) =
    (if Validator.isIn (Object_keys vocabulary) (Js.toLowerCase s) then []
     else [enum_error Query [f] s])
  /\ get_key (at_location (fst (run false c req)) Query) f = VStr (Js.toLowerCase s).
Proof.
  intros T H c. unfold c, run at 1 2.
  cbn [field locations stack query addItem toLowerCase isIn if_ app].
  rewrite (selectFields_single _ _ _ T) by discriminate. rewrite H. cbn [map].
  rewrite run_stack_cons.
  cbn [run_instances run_item i_value i_location i_path].
  unfold query. rewrite exists_passes by (try rewrite H; (exact T || discriminate)).
  rewrite (write_back_same req Query f s H). cbn [app].
  rewrite (enumerated_stack req Query f s _ [] H).
  split; [reflexivity|]. cbn [fst].
  apply (write_back_get req Query f). rewrite H. discriminate.
Qed.

Lemma run_instances_lower (dry : bool) (insts : list field_instance) (req : request)
    (errors : list validation_error) :
  snd (fst (run_instances dry (CustomSanitization lower) req errors
              (map (fun i => (i, false)) insts))) = errors
  /\ snd (run_instances dry (CustomSanitization lower) req errors
            (map (fun i => (i, false)) insts)) = map (fun i => (lowered i, false)) insts.
Proof.
  revert req errors; induction insts as [|i insts IH]; intros req errors; simpl;
    [split; reflexivity|].
  destruct (IH (if dry then req
                else write_back req (i_location i) (i_path i) (lower (i_value i)))
               (errors ++ [])) as [E1 E2].
  destruct (run_instances dry _ _ _ (map _ insts)) as [[r e] d]; simpl in *.
  rewrite E1, E2, app_nil_r. split; reflexivity.
Qed.

Lemma run_instances_check (dry : bool) (validator : string -> bool)
    (insts : list field_instance) (req : request) (errors : list validation_error) :
  snd (fst (run_instances dry (StandardValidation validator) req errors
              (map (fun i => (i, false)) insts))) =
  errors ++ flat_map (errors_of validator) insts.
Proof.
  revert req errors; induction insts as [|i insts IH]; intros req errors; simpl;
    [now rewrite app_nil_r|].
  specialize (IH (if dry then req else write_back req (i_location i) (i_path i) (i_value i))
                 (errors ++ errors_of validator i)).
  unfold errors_of at 1 in IH.
  destruct (run_instances dry _ _ _ (map _ insts)) as [[r e] d]; simpl in *.
  rewrite IH, <- app_assoc. reflexivity.
Qed.

Lemma unit_chain_errors (req : request) :
  snd (run false (check "ingredients.*.unit" |> toLowerCase |> isIn (Object_keys unit)) req) =
  flat_map (fun i => errors_of (Validator.isIn (Object_keys unit)) (lowered i))
           (selectFields req "ingredients.*.unit" all_locations).
Proof.
  unfold run. cbn [field locations stack check addItem toLowerCase isIn app].
  rewrite !run_stack_cons. cbn [run_stack].
  destruct (run_instances_lower false (selectFields req "ingredients.*.unit" all_locations)
              req []) as [E1 E2].
  destruct (run_instances false (CustomSanitization lower) req [] _) as [[r e] d].
  simpl in E1, E2. subst e d.
  rewrite <- (map_map lowered (fun i => (i, false))).
  pose proof (run_instances_check false (Validator.isIn (Object_keys unit))
                (map lowered (selectFields req "ingredients.*.unit" all_locations)) r [])
    as E3.
  destruct (run_instances false (StandardValidation _) r [] _) as [[r' e'] d'].
  simpl in E3. subst e'. cbn [snd].
  now rewrite !flat_map_concat_map, map_map.
Qed.

Lemma value_eqb_eq : forall a b : value, value_eqb a b = true -> a = b.
Proof.
  fix IH 1. intros a b. destruct a, b; simpl; try discriminate; intros H.
  - reflexivity.
  - reflexivity.
  - apply Bool.eqb_prop in H. now subst.
  - apply Z.eqb_eq in H. now subst.
  - reflexivity.
  - apply String.eqb_eq in H. now subst.
  - f_equal. revert elems0 H.
    induction elems as [|x l IHl]; intros [|y l'] H; try discriminate; [reflexivity|].
    apply andb_true_iff in H as [H1 H2]. f_equal; [apply IH; exact H1 | apply IHl; exact H2].
  - f_equal. revert props0 H.
    induction props as [|[k x] l IHl]; intros [|[k' y] l'] H; try discriminate; [reflexivity|].
    apply andb_true_iff in H as [H1 H2]. apply andb_true_iff in H1 as [H0 H1].
    apply String.eqb_eq in H0. subst k'.
    f_equal; [f_equal; apply IH; exact H1 | apply IHl; exact H2].
Qed.

Lemma value_eqb_refl : forall a : value, value_eqb a a = true.
Proof.
  fix IH 1. intros a. destruct a; simpl.
  - reflexivity.
  - reflexivity.
  - apply Bool.eqb_reflx.
  - apply Z.eqb_refl.
  - reflexivity.
  - apply String.eqb_refl.
  - induction elems as [|x l IHl]; [reflexivity|]. now rewrite IH, IHl.
  - induction props as [|[k x] l IHl]; [reflexivity|].
    now rewrite String.eqb_refl, IH, IHl.
Qed.

Lemma get_undefined (p : list string) : get VUndef p = VUndef.
Proof. induction p; simpl; auto. Qed.

Lemma get_primitive (v : value) (p : list string) :
  isObjectLike v = false -> p <> [] -> get v p = VUndef.
Proof.
  intros H N. destruct p as [|k p]; [congruence|]. simpl.
  replace (get_key v k) with VUndef by (destruct v; simpl in *; congruence).
  apply get_undefined.
Qed.

Lemma get_empty (k2 : string) (q : list string) :
  q <> [] ->
  get (match index_of_key k2 with Some _ => VArr [] | None => VObj [] end) q = VUndef.
Proof.
  intros N. destruct q as [|k q]; [congruence|]. simpl.
  replace (get_key _ k) with VUndef; [apply get_undefined|].
  destruct (index_of_key k2); simpl; [|reflexivity].
  destruct (index_of_key k) as [[|j]|]; reflexivity.
Qed.

Lemma get_key_set_key (v : value) (k : string) (y : value) :
  get_key (set_key v k y) k = y \/ set_key v k y = v.
Proof.
  destruct v; simpl; auto.
  - destruct (index_of_key k) eqn:E; auto. left. simpl. rewrite E. apply nth_set_same.
  - left. apply assoc_set_same.
Qed.

Lemma get_set_in_same (p : list string) (v x : value) :
  p <> [] -> get v p <> VUndef -> get (set_in v p x) p = x.
Proof.
  revert v; induction p as [|k p IH]; intros v N H; [congruence|].
  simpl in H. destruct p as [|k2 p].
  - simpl in *. now apply get_key_set_key_same.
  - assert (O : isObjectLike (get_key v k) = true).
    { destruct (isObjectLike (get_key v k)) eqn:E; [reflexivity|].
      rewrite get_primitive in H by (auto; discriminate). congruence. }
    cbn [set_in get]. rewrite O.
    rewrite get_key_set_key_same by (destruct (get_key v k); simpl in O; congruence).
    apply IH; [discriminate | exact H].
Qed.

Lemma get_set_in_other (p q : list string) (v x : value) :
  length p = length q -> p <> q -> get (set_in v p x) q = get v q.
Proof.
  revert q v; induction p as [|k p IH]; intros [|k' q] v L N; simpl in L;
    try discriminate; [congruence|].
  cbn [set_in get].
  destruct (string_dec k' k) as [->|D].
  - assert (N' : p <> q) by congruence.
    destruct (get_key_set_key v k
                (set_in match p with
                        | [] => get_key v k
                        | k2 :: _ =>
                            if isObjectLike (get_key v k) then get_key v k
                            else match index_of_key k2 with
                                 | Some _ => VArr []
                                 | None => VObj []
                                 end
                        end p x)) as [E|E]; rewrite E; [|reflexivity].
    rewrite IH by (auto; lia).
    destruct p as [|k2 p]; [reflexivity|].
    destruct (isObjectLike (get_key v k)) eqn:O; [reflexivity|].
    rewrite get_empty, get_primitive; auto; destruct q; simpl in L; congruence.
  - now rewrite get_key_set_key_other.
Qed.

Lemma get_set_same (p : list string) (v x : value) :
  p <> [] -> get v p <> VUndef -> get (set v p x) p = x.
Proof.
  intros N H. unfold set. destruct (isObjectLike v) eqn:O.
  - now apply get_set_in_same.
  - rewrite get_primitive in H; congruence.
Qed.

Lemma get_set_other (p q : list string) (v x : value) :
  length p = length q -> p <> q -> get (set v p x) q = get v q.
Proof.
  intros L N. unfold set. destruct (isObjectLike v); [|reflexivity].
  now apply get_set_in_other.
Qed.

Lemma location_eqb_eq (a b : location) : location_eqb a b = true <-> a = b.
Proof. destruct a, b; simpl; split; congruence. Qed.

Lemma write_back_sync (req : request) (l : location) (p : list string) (v : value) :
  p <> [] ->
  (v <> get (at_location req l) p -> get (at_location req l) p <> VUndef) ->
  get (at_location (write_back req l p v) l) p = v.
Proof.
  intros N H. unfold write_back. destruct (value_eqb _ v) eqn:E.
  - now apply value_eqb_eq.
  - destruct p as [|k p]; [congruence|].
    rewrite at_with_location.
    replace (location_eqb l l) with true by (symmetry; now apply location_eqb_eq).
    apply get_set_same; [discriminate|]. apply H. intros ->.
    rewrite value_eqb_refl in E. discriminate.
Qed.

Lemma write_back_other (req : request) (l l' : location) (p q : list string) (v : value) :
  p <> [] -> length p = length q -> (l, p) <> (l', q) ->
  get (at_location (write_back req l p v) l') q = get (at_location req l') q.
Proof.
  intros N L D. unfold write_back. destruct (value_eqb _ v); [reflexivity|].
  destruct p as [|k p]; [congruence|].
  rewrite at_with_location. destruct (location_eqb l l') eqn:E; [|reflexivity].
  apply location_eqb_eq in E. subst l'.
  apply get_set_other; [exact L | congruence].
Qed.

Lemma lower_differs (v : value) : lower v <> v -> v <> VUndef.
Proof. destruct v; simpl; congruence. Qed.

Lemma run_instances_lower_sync (n : nat) (insts : list field_instance) (req : request)
    (errors : list validation_error) :
  NoDup (map ikey insts) ->
  Forall (fun i => length (i_path i) = S n /\ synced req i) insts ->
  let req' := fst (fst (run_instances false (CustomSanitization lower) req errors
                          (map (fun i => (i, false)) insts))) in
  (forall i, In i insts -> synced req' (lowered i))
  /\ (forall l q, length q = S n -> ~ In (l, q) (map ikey insts) ->
        get (at_location req' l) q = get (at_location req l) q).
Proof.
  revert req errors; induction insts as [|i insts IH]; intros req errors D F; cbn zeta.
  - split; [intros i [] | reflexivity].
  - inversion D as [|? ? Hi D']; subst. inversion F as [|? ? [Li Si] F']; subst.
    simpl.
    set (req1 := write_back req (i_location i) (i_path i) (lower (i_value i))).
    assert (P : i_path i <> []) by (destruct (i_path i); simpl in Li; congruence).
    assert (O : forall l q, length q = S n -> (i_location i, i_path i) <> (l, q) ->
                  get (at_location req1 l) q = get (at_location req l) q).
    { intros l q Lq Nq. apply write_back_other; auto. congruence. }
    assert (F1 : Forall (fun j => length (i_path j) = S n /\ synced req1 j) insts).
    { apply Forall_forall. intros j Hj.
      rewrite Forall_forall in F'. destruct (F' j Hj) as [Lj Sj]. split; [exact Lj|].
      unfold synced. rewrite O; auto.
      intros E. apply Hi. change (i_location i, i_path i) with (ikey i). 
      replace (ikey i) with (ikey j) by (unfold ikey; congruence). now apply in_map. }
    destruct (IH req1 (errors ++ []) D' F1) as [A B]. cbn zeta in A, B.
    destruct (run_instances false _ req1 _ (map _ insts)) as [[r e] d]. simpl in *.
    split.
    + intros j [<-|Hj]; [|now apply A].
      unfold synced, lowered. simpl. rewrite B by (auto).
      apply write_back_sync; auto.
      intros Ne. unfold synced in Si. rewrite Si in *. apply lower_differs. exact Ne.
    + intros l q Lq Nq. rewrite B by tauto. apply O; auto. 
Qed.

Lemma run_instances_check_req (validator : string -> bool) (insts : list field_instance)
    (req : request) (errors : list validation_error) :
  Forall (synced req) insts ->
  fst (fst (run_instances false (StandardValidation validator) req errors
              (map (fun i => (i, false)) insts))) = req.
Proof.
  revert errors; induction insts as [|i insts IH]; intros errors F; [reflexivity|].
  inversion F as [|? ? Si F']; subst. simpl.
  assert (W : write_back req (i_location i) (i_path i) (i_value i) = req).
  { unfold write_back. unfold synced in Si. now rewrite Si, value_eqb_refl. }
  rewrite W. specialize (IH (errors ++ errors_of validator i) F').
  unfold errors_of at 1 in IH.
  destruct (run_instances false _ req _ (map _ insts)) as [[r e] d]. exact IH.
Qed.

Lemma expandPath_length (segments : list segment) (v : value) (p : list string) :
  In p (expandPath v segments) -> length p = length segments.
Proof.
  revert v p; induction segments as [|[k|] rest IH]; intros v p H; simpl in H.
  - destruct H as [<-|[]]. reflexivity.
  - apply in_map_iff in H as [p' [<- H]]. simpl. f_equal. eauto.
  - apply in_flat_map in H as [k [_ H]].
    apply in_map_iff in H as [p' [<- H]]. simpl. f_equal. eauto.
Qed.

Lemma isSameFieldInstance_spec (a b : field_instance) :
  isSameFieldInstance a b = true <-> ikey a = ikey b.
Proof.
  unfold isSameFieldInstance, ikey. rewrite andb_true_iff, location_eqb_eq.
  destruct (list_eq_dec string_dec (i_path a) (i_path b)); split;
    intros H; try (destruct H; congruence); try (injection H; intros; now split).
Qed.

Lemma uniqWith_NoDup (l seen : list field_instance) :
  NoDup (map ikey (uniqWith isSameFieldInstance seen l))
  /\ forall x, In x (uniqWith isSameFieldInstance seen l) -> ~ In (ikey x) (map ikey seen).
Proof.
  revert seen; induction l as [|y l IH]; intros seen; simpl.
  - split; [constructor | intros x []].
  - destruct (existsb (fun z => isSameFieldInstance z y) seen) eqn:E; [apply IH|].
    destruct (IH (y :: seen)) as [D N]. split.
    + simpl. constructor; [|exact D].
      intros H. apply in_map_iff in H as [x [Hx Hin]].
      apply (N x Hin). simpl. left. now symmetry.
    + intros x [<-|Hx].
      * intros H. apply in_map_iff in H as [z [Hz Hin]].
        assert (existsb (fun z => isSameFieldInstance z y) seen = true); [|congruence].
        apply existsb_exists. exists z. split; [exact Hin|].
        now apply isSameFieldInstance_spec.
      * intros H. apply (N x Hx). simpl. now right.
Qed.

Lemma selectFields_spec (req : request) (f : string) (locs : list location) :
  NoDup (map ikey (selectFields req f locs))
  /\ Forall (fun i => length (i_path i) = length (toPath (pathToExpand (i_location i) f))
                      /\ synced req i)
            (selectFields req f locs).
Proof.
  split; [apply uniqWith_NoDup|].
  apply Forall_forall. intros i Hi. unfold selectFields in Hi.
  apply uniqWith_In in Hi. apply in_flat_map in Hi as [l [_ Hi]].
  unfold expandField in Hi. apply in_map_iff in Hi as [p [<- Hp]].
  split; [simpl; eapply expandPath_length; eauto | reflexivity].
Qed.

Lemma unit_chain_normalizes (req : request) (i : field_instance) :
  In i (selectFields req "ingredients.*.unit" all_locations) ->
  get (at_location (fst (run false unit_chain req)) (i_location i)) (i_path i)
  = lower (i_value i).
Proof.
  intros Hi. destruct (selectFields_spec req "ingredients.*.unit" all_locations) as [D F0].
  assert (F : Forall (fun j => length (i_path j) = 3 /\ synced req j)
                     (selectFields req "ingredients.*.unit" all_locations)).
  { eapply Forall_impl; [|exact F0]. intros j [L S]. split; [|exact S].
    rewrite L. destruct (i_location j); reflexivity. }
  clear F0.
  unfold unit_chain, run. cbn [field locations stack check addItem toLowerCase isIn app].
  rewrite !run_stack_cons. cbn [run_stack].
  destruct (run_instances_lower_sync 2 _ req [] D F) as [A _]. cbn zeta in A.
  destruct (run_instances_lower false (selectFields req "ingredients.*.unit" all_locations)
              req []) as [_ E2].
  destruct (run_instances false (CustomSanitization lower) req [] _) as [[r e] d].
  simpl in A, E2. subst d.
  rewrite <- (map_map lowered (fun i => (i, false))).
  assert (S' : Forall (synced r) (map lowered (selectFields req "ingredients.*.unit" all_locations))).
  { apply Forall_forall. intros j Hj. apply in_map_iff in Hj as [j' [<- Hj']]. now apply A. }
  pose proof (run_instances_check_req (Validator.isIn (Object_keys unit)) _ r e S') as R.
  destruct (run_instances false (StandardValidation _) r e _) as [[r' e'] d'].
  simpl in R. subst r'. cbn [fst].
  change (at_location {| req_message := req_message r; req_contexts := ?c |} (i_location i))
    with (at_location r (i_location i)).
  apply (A i Hi).
Qed.

Lemma unit_chain_accepts (req : request) (i : field_instance) (s : string) :
  In i (selectFields req "ingredients.*.unit" all_locations) ->
  i_value i = VStr s ->
  In (enum_error (i_location i) (i_path i) s) (snd (run false unit_chain req))
  <-> ~ In (Js.toLowerCase s) (Object_keys unit).
Proof.
  intros Hi Hs. unfold unit_chain. rewrite unit_chain_errors, in_flat_map. split.
  - intros [j [_ Hj]] K. unfold errors_of in Hj. apply in_flat_map in Hj as [x [_ Hx]].
    destruct (Validator.isIn (Object_keys unit) (toString x)) eqn:E; [contradiction|].
    destruct Hx as [Hx|[]]. unfold error_at, enum_error in Hx.
    assert (x = VStr (Js.toLowerCase s)) by congruence. subst x.
    simpl in E. apply isIn_spec in K. congruence.
  - intros K. exists i. split; [exact Hi|].
    unfold errors_of, lowered. simpl. rewrite Hs. simpl.
    rewrite (isIn_false _ _ K). left. reflexivity.
Qed.

Lemma run_single_context (c : chain) (l : location) (req : request) :
  toPath (field c) = [Key (field c)] -> locations c = [l] -> l <> Headers ->
  exists v,
    req_contexts (fst (run false c req)) =
    req_contexts req ++
    [{| c_field := field c;
        c_instances := [{| i_location := l; i_path := [field c]; i_value := v |}];
        c_errors := snd (run false c req) |}].
Proof.
  intros T L N. unfold run. rewrite L, (selectFields_single _ _ _ T N). cbn [map].
  pose proof (run_stack_contexts false (stack c)
    (req, [], [({| i_location := l; i_path := [field c];
                   i_value := get_key (at_location req l) (field c) |}, false)])) as C.
  pose proof (run_stack_keys false (stack c)
    (req, [], [({| i_location := l; i_path := [field c];
                   i_value := get_key (at_location req l) (field c) |}, false)])) as K.
  destruct (run_stack false (stack c) _) as [[r e] d]. simpl in C, K.
  destruct d as [|[[l' p' v'] h] [|? ?]]; try discriminate.
  unfold key_of in K. simpl in K. injection K as -> ->.
  exists v'. simpl. now rewrite C.
Qed.

Lemma validated_single_contexts (cs : list chain) (req : request) :
  Forall (fun c => toPath (field c) = [Key (field c)]
                   /\ exists l, locations c = [l] /\ l <> Headers) cs ->
  exists ctxs,
    req_contexts (validated cs req) = req_contexts req ++ ctxs
    /\ Forall2 single_context cs ctxs
    /\ flat_map c_errors ctxs = collect cs req.
Proof.
  revert req; induction cs as [|c cs IH]; intros req F.
  - exists []. simpl. rewrite app_nil_r. repeat split. constructor.
  - inversion F as [|? ? [T [l [L N]]] F']; subst.
    destruct (run_single_context c l req T L N) as [v E].
    destruct (IH (fst (run false c req)) F') as (ctxs & E1 & E2 & E3).
    eexists (_ :: ctxs). unfold validated in *. simpl. rewrite E1, E, <- app_assoc. simpl.
    split; [reflexivity|]. split.
    + constructor; [|exact E2]. exists l, v. split; [exact L | reflexivity].
    + simpl. now rewrite E3.
Qed.

Lemma filter_matchedData (m : message) :
  collect FilterValidation (incoming m) = [] ->
  Object_keys (matchedData (validated FilterValidation (incoming m))) = filter_fields.
Proof.
  intros C.
  destruct (validated_single_contexts FilterValidation (incoming m)) as (ctxs & E1 & E2 & E3).
  { unfold FilterValidation.
    repeat (constructor;
            [split; [reflexivity | eexists; split; [reflexivity | discriminate]]|]).
    constructor. }
  rewrite C in E3. unfold matchedData. rewrite E1. cbn [incoming req_contexts app].
  unfold FilterValidation in E2.
  repeat match goal with
         | H : Forall2 _ (_ :: _) _ |- _ => inversion H; clear H; subst
         | H : Forall2 _ [] _ |- _ => inversion H; clear H; subst
         | H : single_context _ _ |- _ => destruct H as (? & ? & ? & ?)
         end.
  cbn [flat_map] in E3. repeat (apply app_eq_nil in E3 as [? E3]).
  repeat match goal with
         | H : ?y = {| c_field := _; c_instances := _; c_errors := c_errors ?y |},
           E : c_errors ?y = [] |- _ => rewrite E in H; rewrite H; clear H E
         | H : locations _ = [_] |- _ => cbn in H; injection H as <-
         end.
  reflexivity.
Qed.

Lemma get_key_absent (v : value) (k : string) :
  ~ In k (Object_keys v) -> get_key v k = VUndef.
Proof.
  destruct v; simpl; auto.
  - destruct (index_of_key k) as [i|] eqn:E; [|reflexivity]. intros H.
    destruct (Nat.lt_ge_cases i (length elems)) as [L|L]; [|now apply nth_overflow].
    exfalso. apply H. apply index_of_key_sound in E. subst k.
    apply in_map, in_seq. lia.
  - induction props as [|[k' x] props IH]; simpl; [reflexivity|]. intros H.
    destruct (k =? k') eqn:E; [apply String.eqb_eq in E; subst; tauto|].
    apply IH. tauto.
Qed.

Lemma enumerated_accepts (keys : list string) (s : string) (e : validation_error) :
  (if Validator.isIn keys s then [] else [e]) = [] <-> In s keys.
Proof.
  rewrite <- isIn_spec. destruct (Validator.isIn keys s); split; congruence.
Qed.

Ltac fails_here :=
  lazymatch goal with
  | |- fails_when_missing (isString (body ?f)) ?f =>
      apply isString_fails_when_missing; reflexivity
  | |- fails_when_missing (isNumeric (body ?f)) ?f =>
      apply isNumeric_fails_when_missing; reflexivity
  | |- fails_when_missing (isBoolean (body ?f)) ?f =>
      apply isBoolean_fails_when_missing; reflexivity
  | |- fails_when_missing (isIn _ (toLowerCase (body ?f))) ?f =>
      apply isIn_fails_when_missing; [reflexivity | assumption]
  end.

Ltac fails_or_frames :=
  first [ right; eexists; split; [reflexivity | discriminate]
        | left; fails_here ].

Ltac find_failing :=
  first [ apply Exists_cons_hd; fails_here | apply Exists_cons_tl; find_failing ].

(** The lists of fields above are those the chains declare. *)
Lemma filter_fields_declared : filter_fields = map field FilterValidation.
Proof. reflexivity. Qed.

Lemma required_fields_declared :
  required_fields =
  map field (filter (fun c => negb (has_wildcard (field c))) RecipeValidation).
Proof. reflexivity. Qed.

Lemma validated_fields_declared (k : string) :
  In k validated_fields <-> exists c, In c RecipeValidation /\ head_key c = Some k.
Proof.
  split.
  - intros H. unfold validated_fields, required_fields in H. simpl in H.
    assert (P : forall n, n < length RecipeValidation ->
                  head_key (nth n RecipeValidation unit_chain) = Some k ->
                  exists c, In c RecipeValidation /\ head_key c = Some k).
    { intros n L E. eexists. split; [apply nth_In; exact L | exact E]. }
    repeat (destruct H as [<-|H];
            [first [ apply (P 0); [simpl; lia | reflexivity]
                   | apply (P 1); [simpl; lia | reflexivity]
                   | apply (P 2); [simpl; lia | reflexivity]
                   | apply (P 3); [simpl; lia | reflexivity]
                   | apply (P 4); [simpl; lia | reflexivity]
                   | apply (P 5); [simpl; lia | reflexivity]
                   | apply (P 6); [simpl; lia | reflexivity]
                   | apply (P 7); [simpl; lia | reflexivity]
                   | apply (P 8); [simpl; lia | reflexivity]
                   | apply (P 9); [simpl; lia | reflexivity] ]|]).
    contradiction.
  - intros [c [Hc Hk]]. unfold RecipeValidation in Hc. simpl in Hc.
    repeat (destruct Hc as [<-|Hc];
            [vm_compute in Hk; injection Hk as <-; simpl; tauto|]).
    contradiction.
Qed.

(** ** The claims *)

(** C1, as the code has it.  For a delete request whose id has exactly 25
    characters once trimmed, the handler logs the request and issues one
    deletion for the trimmed id to the store, without reading the store
    first; it answers 200 with the plain text "Success" when the store
    resolves the deletion, and when the store rejects it the rejection
    propagates and nothing is sent.  The handler looks at nothing but the
    store's answer, so a second delete of the same id is treated as the
    first. *)
Theorem delete_recipe_follows_the_store (m : message) (s : string) (w : world) :
  get_key (msg_params m) "id" = VStr s ->
  String.length (Validator.trim s) = 25 ->
  let req := validated delete_recipe_validation (incoming m) in
  let c := RecipesDelete (VObj [("where", VObj [("id", VStr (Validator.trim s))])]) in
  handle DeleteRecipe m w =
  match fst (settle c (store w)) with
  | Resolved _ => (inl (Some {| status := 200; sent := Text "Success" |}), after w req c)
  | Rejected reason => (inr (Rejection reason), after w req c)
  end.
Proof.
  intros H L. apply isLength_25 in L. cbn zeta.
  rewrite handle_accepts by (cbn [validations]; now rewrite (delete_recipe_collect m s H), L).
  cbn zeta. cbn [validations]. rewrite (delete_recipe_delegation m s H L). reflexivity.
Qed.

(** C2.  Each of the four operations runs its validation first.  When the
    validation result has an error, a ValidationException is thrown and the
    world is untouched: nothing was logged and the store was not called.
    When it has none, the request is logged, then the store is called, and
    nothing else is observed. *)
Theorem validation_precedes_logging_and_store (op : operation) (m : message) (w : world) :
  let req := validated (validations op) (incoming m) in
  match validationResult req with
  | [] =>
      trace (snd (handle op m w)) = trace w ++ [Logged req; Called (delegation op req)]
      /\ store (snd (handle op m w)) = snd (settle (delegation op req) (store w))
  | errors => handle op m w = (inr (ValidationException errors), w)
  end.
Proof.
  cbn zeta. rewrite collect_incoming.
  destruct (collect (validations op) (incoming m)) as [|e es] eqn:C.
  - rewrite (handle_accepts _ _ _ C). cbn zeta.
    destruct (fst (settle _ (store w))); split; reflexivity.
  - rewrite handle_rejects by (rewrite C; discriminate). now rewrite C.
Qed.

(** C3.  The vocabularies having no empty key: a create request whose body
    lacks one of the required fields (no [name], say) ends in a
    ValidationException and the world is untouched, so the store's create
    operation was not invoked; a create request that passes validation is
    logged, the store's create operation is invoked once, with the body of
    the request, and what it resolves with is sent back as JSON, unchanged. *)
Theorem create_recipe_requires_fields_then_returns_store_result
    (m : message) (w : world) :
  ~ In "" (Object_keys difficulty) ->
  ~ In "" (Object_keys media) ->
  ~ In "" (Object_keys taste) ->
  (forall f, In f required_fields -> get_key (msg_body m) f = VUndef ->
     exists errors,
       errors <> []
       /\ handle CreateNewRecipe m w = (inr (ValidationException errors), w))
  /\ (collect RecipeValidation (incoming m) = [] ->
      let req := validated RecipeValidation (incoming m) in
      trace (snd (handle CreateNewRecipe m w)) =
      trace w ++ [Logged req; Called (CreateRecipe (at_location req Body))]
      /\ forall recipe,
           fst (settle (CreateRecipe (at_location req Body)) (store w)) = Resolved recipe ->
           fst (handle CreateNewRecipe m w)
           = inl (Some {| status := 200; sent := Json recipe |})).
Proof.
  intros Vd Vm Vt. split.
  - intros f Hin Hmiss.
    assert (C : collect (validations CreateNewRecipe) (incoming m) <> []).
    { cbn [validations]. apply collect_missing with (f := f); [exact Hmiss | |].
      - unfold required_fields in Hin. simpl in Hin.
        repeat (destruct Hin as [<-|Hin]; [unfold RecipeValidation; find_failing|]).
        contradiction.
      - unfold required_fields in Hin. simpl in Hin.
        repeat (destruct Hin as [<-|Hin];
                [unfold RecipeValidation; repeat (constructor; [fails_or_frames|]);
                 constructor|]).
        contradiction. }
    exists (collect (validations CreateNewRecipe) (incoming m)).
    split; [exact C | now apply handle_rejects].
  - intros C. cbn zeta.
    rewrite (handle_accepts CreateNewRecipe m w C). cbn zeta. cbn [validations delegation].
    destruct (fst (settle _ (store w))) eqn:E; split; try reflexivity.
    + intros recipe [= ->]. reflexivity.
    + intros recipe R. discriminate.
Qed.

(** C4.  The delete route trims the id before it checks its length: the
    request is accepted, and the deletion issued for the trimmed id, exactly
    when the trimmed id has 25 characters, whatever white space surrounds
    it; otherwise (24 characters once trimmed, say) a ValidationException is
    thrown for the id and neither the logger nor the store is reached. *)
Theorem delete_recipe_trims_then_checks_length (m : message) (s : string) (w : world) :
  get_key (msg_params m) "id" = VStr s ->
  (String.length (Validator.trim s) = 25 ->
   collect delete_recipe_validation (incoming m) = []
   /\ trace (snd (handle DeleteRecipe m w)) =
      trace w ++
      [Logged (validated delete_recipe_validation (incoming m));
       Called (RecipesDelete (VObj [("where", VObj [("id", VStr (Validator.trim s))])]))])
  /\ (String.length (Validator.trim s) <> 25 ->
      handle DeleteRecipe m w =
      (inr (ValidationException [invalid_id (VStr (Validator.trim s))]), w)).
Proof.
  intros H. split; intros L.
  - apply isLength_25 in L.
    assert (C : collect (validations DeleteRecipe) (incoming m) = [])
      by (cbn [validations]; now rewrite (delete_recipe_collect m s H), L).
    split; [exact C|].
    rewrite (handle_accepts _ _ _ C). cbn zeta. cbn [validations].
    rewrite (delete_recipe_delegation m s H L).
    destruct (fst (settle _ (store w))); reflexivity.
  - assert (L' : Validator.isLength 25 25 (Validator.trim s) = false).
    { destruct (Validator.isLength 25 25 (Validator.trim s)) eqn:E; [|reflexivity].
      apply isLength_25 in E. contradiction. }
    rewrite handle_rejects; cbn [validations];
      rewrite (delete_recipe_collect m s H), L'; [reflexivity | discriminate].
Qed.

(** C5.  The enumerated fields are matched without regard to case.  For
    [difficulty], [media] and [taste], in the chain of the list route (on the
    query) and in the chain of the create route (on the body), and for the
    [unit] of every ingredient: a string value, in whatever casing, is
    accepted exactly when its lower-case form is a key of the vocabulary, and
    the request then holds the lower-case form in its place. *)
Theorem enumerated_fields_ignore_case (s : string) (req : request) :
  (forall f vocabulary,
     In (f, vocabulary) enumerated_fields ->
     let filter_chain :=
       query f |> if_ (query f |> exists_) |> toLowerCase
         |> isIn (Object_keys vocabulary) in
     let create_chain := body f |> toLowerCase |> isIn (Object_keys vocabulary) in
     In filter_chain FilterValidation
     /\ In create_chain RecipeValidation
     /\ (get_key (at_location req Query) f = VStr s ->
         (snd (run false filter_chain req) = []
          <-> In (Js.toLowerCase s) (Object_keys vocabulary))
         /\ get_key (at_location (fst (run false filter_chain req)) Query) f
            = VStr (Js.toLowerCase s))
     /\ (get_key (at_location req Body) f = VStr s ->
         (snd (run false create_chain req) = []
          <-> In (Js.toLowerCase s) (Object_keys vocabulary))
         /\ get_key (at_location (fst (run false create_chain req)) Body) f
            = VStr (Js.toLowerCase s)))
  /\ In unit_chain RecipeValidation
  /\ (forall i,
        In i (selectFields req "ingredients.*.unit" all_locations) ->
        i_value i = VStr s ->
        (~ In (enum_error (i_location i) (i_path i) s) (snd (run false unit_chain req))
         <-> In (Js.toLowerCase s) (Object_keys unit))
        /\ get (at_location (fst (run false unit_chain req)) (i_location i)) (i_path i)
           = VStr (Js.toLowerCase s)).
Proof.
  split; [|split].
  - intros f vocabulary Hin. cbn zeta.
    assert (T : toPath f = [Key f]).
    { unfold enumerated_fields in Hin. simpl in Hin.
      destruct Hin as [[= <- <-]|[[= <- <-]|[[= <- <-]|[]]]]; reflexivity. }
    split; [|split; [|split]].
    + unfold enumerated_fields in Hin. simpl in Hin.
      destruct Hin as [[= <- <-]|[[= <- <-]|[[= <- <-]|[]]]]; unfold FilterValidation;
        [do 4 right | do 5 right | do 6 right]; left; reflexivity.
    + unfold enumerated_fields in Hin. simpl in Hin.
      destruct Hin as [[= <- <-]|[[= <- <-]|[[= <- <-]|[]]]]; unfold RecipeValidation;
        [do 5 right | do 6 right | do 7 right]; left; reflexivity.
    + intros H. destruct (enumerated_query_run f vocabulary s req T H) as [E1 E2].
      split; [|exact E2]. rewrite E1. apply enumerated_accepts.
    + intros H. destruct (enumerated_body_run f vocabulary s req T H) as [E1 E2].
      split; [|exact E2]. rewrite E1. apply enumerated_accepts.
  - unfold RecipeValidation. do 11 right. left. reflexivity.
  - intros i Hi Hs. split.
    + rewrite (unit_chain_accepts req i s Hi Hs).
      destruct (in_dec string_dec (Js.toLowerCase s) (Object_keys unit)); tauto.
    + rewrite (unit_chain_normalizes req i Hi), Hs. reflexivity.
Qed.

(** C6.  A get request whose id does not have exactly 25 characters (24 or
    26, say) ends in a ValidationException for the id, and the world is as
    before: the store's get operation was not called. *)
Theorem get_recipe_rejects_other_lengths (m : message) (s : string) (w : world) :
  get_key (msg_params m) "id" = VStr s ->
  String.length s <> 25 ->
  handle GetRecipeById m w = (inr (ValidationException [invalid_id (VStr s)]), w).
Proof. apply get_recipe_rejects. Qed.

(** C7.  A get request with a 25-character id for which the store resolves
    with nothing (null, undefined: a falsy value) is answered with status 404
    and the text "Entity not found"; it is a response, not an exception. *)
Theorem get_recipe_absent_is_not_found (m : message) (s : string) (w : world) (v : value) :
  get_key (msg_params m) "id" = VStr s ->
  String.length s = 25 ->
  fst (settle (GetRecipe (VStr s)) (store w)) = Resolved v ->
  truthy v = false ->
  fst (handle GetRecipeById m w) =
  inl (Some {| status := 404; sent := Text "Entity not found" |}).
Proof.
  intros H L R F. apply isLength_25 in L.
  rewrite handle_accepts by (cbn [validations]; now rewrite (get_recipe_collect m s H), L).
  cbn zeta. cbn [validations]. rewrite (get_recipe_delegation m s H L), R.
  cbn [fst reply]. now rewrite F.
Qed.

(** C8.  When some field violates its constraint, the ValidationException
    carries the validation result in full, not its first error: an error is
    in it exactly when some chain of the route reports it, each chain having
    run on the request as the chains before it left it, whether or not they
    had reported errors themselves. *)
Theorem validation_exception_carries_every_violation
    (op : operation) (m : message) (w : world) :
  collect (validations op) (incoming m) <> [] ->
  exists result,
    handle op m w = (inr (ValidationException result), w)
    /\ result = validationResult (validated (validations op) (incoming m))
    /\ forall e,
         In e result <->
         exists cs1 c cs2,
           validations op = cs1 ++ c :: cs2
           /\ In e (snd (run false c (validated cs1 (incoming m)))).
Proof.
  intros H. exists (collect (validations op) (incoming m)). split; [|split].
  - now apply handle_rejects.
  - now rewrite collect_incoming.
  - intros e. apply collect_In.
Qed.

(** C9.  A create request that passes validation has the body of the
    request, whole, handed to the store's create operation: every property
    of the body other than the validated ones is there as the client sent
    it.  A list request that passes validation has the matched data handed
    to the store, whose properties are the eight filter fields and no other,
    so a query parameter outside of them does not reach the store. *)
Theorem create_forwards_body_and_list_forwards_matched_data (m : message) (w : world) :
  (collect RecipeValidation (incoming m) = [] ->
   let req := validated RecipeValidation (incoming m) in
   trace (snd (handle CreateNewRecipe m w)) =
   trace w ++ [Logged req; Called (CreateRecipe (at_location req Body))]
   /\ forall k, ~ In k validated_fields ->
        get_key (at_location req Body) k = get_key (msg_body m) k)
  /\ (collect FilterValidation (incoming m) = [] ->
      let req := validated FilterValidation (incoming m) in
      trace (snd (handle ListRecipes m w)) =
      trace w ++ [Logged req; Called (GetAllRecipes (matchedData req))]
      /\ Object_keys (matchedData req) = filter_fields
      /\ forall k, ~ In k filter_fields -> get_key (matchedData req) k = VUndef).
Proof.
  split; intros C; cbn zeta.
  - split.
    + rewrite (handle_accepts CreateNewRecipe m w C). cbn zeta.
      destruct (fst (settle _ (store w))); reflexivity.
    + intros k Hk.
      transitivity (get_key (at_location (incoming m) Body) k); [|reflexivity].
      apply validated_frame. unfold RecipeValidation.
      repeat (constructor;
              [eexists; split; [reflexivity | intros ->; apply Hk; simpl; tauto]|]).
      constructor.
  - split; [|split].
    + rewrite (handle_accepts ListRecipes m w C). cbn zeta.
      destruct (fst (settle _ (store w))); reflexivity.
    + now apply filter_matchedData.
    + intros k Hk. apply get_key_absent. now rewrite filter_matchedData.
Qed.

(** C10.  The get route checks the length of the id as it came: an id of 25
    characters, white space included, passes and goes to the store as it is;
    an id that has 25 characters only once trimmed is longer than 25 and is
    rejected, although the delete route accepts it. *)
Theorem get_recipe_does_not_trim (m : message) (s : string) (w : world) :
  get_key (msg_params m) "id" = VStr s ->
  (String.length s = 25 ->
   trace (snd (handle GetRecipeById m w)) =
   trace w ++
   [Logged (validated get_recipe_validation (incoming m)); Called (GetRecipe (VStr s))])
  /\ (String.length (Validator.trim s) = 25 -> Validator.trim s <> s ->
      25 < String.length s
      /\ handle GetRecipeById m w = (inr (ValidationException [invalid_id (VStr s)]), w)
      /\ collect delete_recipe_validation (incoming m) = []).
Proof.
  intros H. split.
  - intros L. apply isLength_25 in L.
    rewrite handle_accepts by (cbn [validations]; now rewrite (get_recipe_collect m s H), L).
    cbn zeta. cbn [validations]. rewrite (get_recipe_delegation m s H L).
    destruct (fst (settle _ (store w))); reflexivity.
  - intros L N.
    assert (G : 25 < String.length s).
    { pose proof (trim_length s). pose proof (trim_same_length s).
      destruct (Nat.eq_dec (String.length s) 25); [|lia].
      exfalso. apply N. apply H1. lia. }
    split; [exact G|]. split.
    + apply get_recipe_rejects; [exact H | lia].
    + apply isLength_25 in L. now rewrite (delete_recipe_collect m s H), L.
Qed.

(** ** Further properties *)

(** *** Guarded chains *)

Lemma run_stack_halted (dry : bool) (items : list item) (req : request)
    (errors : list validation_error) (i : field_instance) :
  run_stack dry items (req, errors, [(i, true)]) = (req, errors, [(i, true)]).
Proof. induction items as [|it items IH]; simpl; [reflexivity | exact IH]. Qed.

Lemma exists_fails (req : request) (f : string) (l : location) :
  toPath f = [Key f] -> l <> Headers -> get_key (at_location req l) f = VUndef ->
  snd (run true (exists_ {| field := f; locations := [l]; stack := [] |}) req) =
  [error_at (instance_at req l f) VUndef].
Proof.
  intros T N H. unfold run. cbn [field locations stack exists_ addItem app].
  rewrite (selectFields_single _ _ _ T N).
  cbn -[at_location get_key]. unfold instance_at. rewrite H. reflexivity.
Qed.

Lemma write_back_synced (req : request) (l : location) (p : list string) :
  write_back req l p (get (at_location req l) p) = req.
Proof. unfold write_back. now rewrite value_eqb_refl. Qed.

Lemma guarded_absent (f : string) (rest : list item) (req : request) :
  toPath f = [Key f] ->
  get_key (at_location req Query) f = VUndef ->
  run false {| field := f; locations := [Query]; stack := present f :: rest |} req =
  ({| req_message := req_message req;
      req_contexts := req_contexts req ++
        [{| c_field := f; c_instances := [instance_at req Query f]; c_errors := [] |}] |},
   []).
Proof.
  intros T H. unfold run. cbn [field locations stack].
  rewrite (selectFields_single _ _ _ T) by discriminate. cbn [map].
  rewrite run_stack_cons. cbn [run_instances run_item present].
  unfold query. rewrite (exists_fails req f Query T) by (discriminate || exact H).
  rewrite run_stack_halted. reflexivity.
Qed.

Lemma guarded_present (f : string) (rest : list item) (req : request) :
  toPath f = [Key f] ->
  get_key (at_location req Query) f <> VUndef ->
  run false {| field := f; locations := [Query]; stack := present f :: rest |} req =
  let '(req', errors, instances) :=
    run_stack false rest (req, [], [(instance_at req Query f, false)]) in
  ({| req_message := req_message req';
      req_contexts := req_contexts req' ++
        [{| c_field := f; c_instances := map fst instances; c_errors := errors |}] |},
   errors).
Proof.
  intros T H. unfold run. cbn [field locations stack].
  rewrite (selectFields_single _ _ _ T) by discriminate. cbn [map].
  rewrite run_stack_cons. cbn [run_instances run_item present i_value i_location i_path].
  unfold query. rewrite (exists_passes req f Query T) by (discriminate || exact H).
  change (get_key (at_location req Query) f) with (get (at_location req Query) [f]).
  rewrite write_back_synced. reflexivity.
Qed.

(** X1.  A filter of the list route that the query does not have is
    skipped: its chain reports no error, whatever the chain would ask of a
    value, and leaves the message as it is. *)
Theorem absent_filter_is_skipped (c : chain) (req : request) :
  In c FilterValidation ->
  get_key (at_location req Query) (field c) = VUndef ->
  snd (run false c req) = [] /\ req_message (fst (run false c req)) = req_message req.
Proof.
  intros Hin H. unfold FilterValidation in Hin. simpl in Hin.
  repeat (destruct Hin as [<-|Hin];
          [match goal with
           | |- context [run false ?c req] =>
               let f := eval cbv in (field c) in
               let r := eval cbv [stack query if_ exists_ addItem app isString isNumeric
                                   toInt toLowerCase isIn isBoolean toBoolean tl] in
                          (tl (stack c)) in
               change c with {| field := f; locations := [Query]; stack := present f :: r |};
               rewrite (guarded_absent f r req eq_refl H); split; reflexivity
           end|]).
  contradiction.
Qed.

Lemma write_back_present (req : request) (l : location) (f : string) (v : value) :
  get_key (at_location req l) f <> VUndef ->
  get_key (at_location (write_back req l [f] v) l) f = v.
Proof.
  intros H. apply (write_back_sync req l [f] v); [discriminate | intros _; exact H].
Qed.

(** X2.  The name and reference filters of the list route ask for a string:
    a value that is there is accepted exactly when it is one (a parameter
    given twice, which arrives as an array, is not), and the chain leaves
    the message as it is. *)
Theorem string_filter_requires_a_string (f : string) (req : request) :
  In f ["name"; "reference"] ->
  get_key (at_location req Query) f <> VUndef ->
  let c := query f |> if_ (query f |> exists_) |> isString in
  In c FilterValidation
  /\ (snd (run false c req) = [] <-> is_string (get_key (at_location req Query) f) = true)
  /\ req_message (fst (run false c req)) = req_message req.
Proof.
  intros Hin H c.
  assert (T : toPath f = [Key f])
    by (simpl in Hin; destruct Hin as [<-|[<-|[]]]; reflexivity).
  split.
  - simpl in Hin. destruct Hin as [<-|[<-|[]]]; unfold FilterValidation;
      [|do 3 right]; left; reflexivity.
  - change c with {| field := f; locations := [Query];
                     stack := present f :: [CustomValidation is_string] |}.
    rewrite (guarded_present f _ req T H).
    cbn [run_stack run_instances run_item instance_at i_value i_location i_path].
    change (get_key (at_location req Query) f) with (get (at_location req Query) [f]).
    rewrite write_back_synced. cbn [get app].
    destruct (is_string (get_key (at_location req Query) f)); cbn [snd fst req_message];
      split; try reflexivity; split; (reflexivity || discriminate).
Qed.

(** X3.  The servings and time filters of the list route: a string is
    accepted exactly when validator.js finds it numeric, and, accepted or
    not, the query holds what [parseInt] makes of it afterwards. *)
Theorem numeric_filter_is_coerced (f s : string) (req : request) :
  In f ["servings"; "time"] ->
  get_key (at_location req Query) f = VStr s ->
  let c := query f |> if_ (query f |> exists_) |> isNumeric |> toInt in
  In c FilterValidation
  /\ (snd (run false c req) = [] <-> Validator.isNumeric s = true)
  /\ get_key (at_location (fst (run false c req)) Query) f = Validator.toInt s.
Proof.
  intros Hin H c.
  assert (T : toPath f = [Key f])
    by (simpl in Hin; destruct Hin as [<-|[<-|[]]]; reflexivity).
  assert (P : get_key (at_location req Query) f <> VUndef) by (rewrite H; discriminate).
  split.
  - simpl in Hin. destruct Hin as [<-|[<-|[]]]; unfold FilterValidation;
      [do 1 right | do 2 right]; left; reflexivity.
  - change c with {| field := f; locations := [Query];
                     stack := present f :: [StandardValidation Validator.isNumeric;
                                            StandardSanitization Validator.toInt] |}.
    rewrite (guarded_present f _ req T P).
    cbn [run_stack run_instances run_item instance_at i_value i_location i_path].
    rewrite H. rewrite (write_back_same req Query f s H).
    cbn [wrapped flat_map toString toString_flat String_ app fst snd req_message].
    split.
    + destruct (Validator.isNumeric s); split; (reflexivity || discriminate).
    + apply (write_back_present req Query f). exact P.
Qed.

(** X4.  The vegetarian filter of the list route: a string is accepted
    exactly when it is one of true, false, 1 and 0, and an accepted one
    becomes the boolean that is true for true and 1. *)
Theorem vegetarian_filter_is_coerced (s : string) (req : request) :
  get_key (at_location req Query) "vegetarian" = VStr s ->
  let c := query "vegetarian" |> if_ (query "vegetarian" |> exists_)
             |> isBoolean |> toBoolean in
  In c FilterValidation
  /\ (snd (run false c req) = [] <-> In s ["true"; "false"; "1"; "0"])
  /\ (In s ["true"; "false"; "1"; "0"] ->
      get_key (at_location (fst (run false c req)) Query) "vegetarian"
      = VBool (if string_dec s "true" then true
               else if string_dec s "1" then true else false)).
Proof.
  intros H c.
  assert (P : get_key (at_location req Query) "vegetarian" <> VUndef)
    by (rewrite H; discriminate).
  split.
  - unfold FilterValidation. do 7 right. left. reflexivity.
  - change c with {| field := "vegetarian"; locations := [Query];
                     stack := present "vegetarian"
                                :: [StandardValidation Validator.isBoolean;
                                    StandardSanitization
                                      (fun s => VBool (Validator.toBoolean s))] |}.
    rewrite (guarded_present "vegetarian" _ req eq_refl P).
    cbn [run_stack run_instances run_item instance_at i_value i_location i_path].
    rewrite H. rewrite (write_back_same req Query "vegetarian" s H).
    cbn [wrapped flat_map toString toString_flat String_ app fst snd req_message].
    split.
    + unfold Validator.isBoolean. rewrite <- isIn_spec.
      destruct (Validator.isIn _ s); split; (reflexivity || discriminate).
    + intros A. transitivity (VBool (Validator.toBoolean s));
        [apply (write_back_present req Query "vegetarian"); exact P|].
      simpl in A. destruct A as [<-|[<-|[<-|[<-|[]]]]]; reflexivity.
Qed.

(** *** Numeric strings and [parseInt] *)







(** *** Chains without sanitizer *)

Lemma run_instances_validation (it : item) (insts : list field_instance) (req : request)
    (errors : list validation_error) :
  is_validation it = true ->
  Forall (synced req) insts ->
  fst (fst (run_instances false it req errors (map (fun i => (i, false)) insts))) = req
  /\ snd (run_instances false it req errors (map (fun i => (i, false)) insts))
     = map (fun i => (i, false)) insts.
Proof.
  intros V. revert errors; induction insts as [|[l p v] insts IH]; intros errors F;
    [split; reflexivity|].
  inversion F as [|? ? Si F']; subst. cbn [map run_instances].
  assert (R : exists es,
             run_item it req {| i_location := l; i_path := p; i_value := v |} = Some (v, es))
    by (destruct it; try discriminate V; simpl; eauto).
  destruct R as [es ->]. cbn [i_location i_path i_value].
  unfold synced in Si. cbn [i_location i_path i_value] in Si.
  assert (W : write_back req l p v = req) by (rewrite <- Si; apply write_back_synced).
  rewrite W.
  destruct (IH (errors ++ es) F') as [E1 E2].
  destruct (run_instances false it req (errors ++ es) (map _ insts)) as [[r e] d].
  simpl in E1, E2. subst r d. split; reflexivity.
Qed.

Lemma run_stack_validation (items : list item) (insts : list field_instance)
    (req : request) (errors : list validation_error) :
  forallb is_validation items = true ->
  Forall (synced req) insts ->
  fst (fst (run_stack false items (req, errors, map (fun i => (i, false)) insts))) = req.
Proof.
  revert errors; induction items as [|it items IH]; intros errors V F; [reflexivity|].
  simpl in V. apply andb_true_iff in V as [V1 V2]. rewrite run_stack_cons.
  destruct (run_instances_validation it insts req errors V1 F) as [E1 E2].
  destruct (run_instances false it req errors _) as [[r e] d]. simpl in E1, E2. subst r d.
  now apply IH.
Qed.

Lemma validates_only_message (c : chain) (req : request) :
  validates_only c = true -> req_message (fst (run false c req)) = req_message req.
Proof.
  intros V. unfold run.
  destruct (selectFields_spec req (field c) (locations c)) as [_ F].
  assert (S : Forall (synced req) (selectFields req (field c) (locations c)))
    by (eapply Forall_impl; [|exact F]; intros i [_ Hs]; exact Hs).
  pose proof (run_stack_validation (stack c) _ req [] V S) as E.
  destruct (run_stack false (stack c) _) as [[r e] d]. simpl in E. subst r. reflexivity.
Qed.

(** X6.  Chains that only validate never touch the message: after any
    number of them the body, cookies, headers, params and query are what the
    client sent.  The get route is made of such a chain, and so are all the
    chains of the create route but the four that lower an enumerated
    field. *)
Theorem validators_leave_the_message (cs : list chain) (req : request) :
  forallb validates_only cs = true ->
  req_message (validated cs req) = req_message req.
Proof.
  revert req; induction cs as [|c cs IH]; intros req V; [reflexivity|].
  simpl in V. apply andb_true_iff in V as [V1 V2].
  unfold validated in *. cbn [fold_left]. rewrite (IH _ V2).
  now apply validates_only_message.
Qed.

(** *** What reaches the store *)

Lemma trimStart_fixed (x : string) :
  trimStart x = x -> forall c r, x = String c r -> is_space c = false.
Proof.
  intros E c r ->. simpl in E. destruct (is_space c) eqn:S; [|reflexivity].
  pose proof (trimStart_length r) as L. rewrite E in L. simpl in L. lia.
Qed.

Lemma trimStart_idempotent (x : string) : trimStart (trimStart x) = trimStart x.
Proof.
  induction x as [|c x IH]; [reflexivity|]. simpl.
  destruct (is_space c) eqn:S; [exact IH|]. simpl. now rewrite S.
Qed.

Lemma trimEnd_cons (c : ascii) (r : string) :
  trimEnd (String c r) =
  match trimEnd r with
  | EmptyString => if is_space c then EmptyString else String c EmptyString
  | t => String c t
  end.
Proof. reflexivity. Qed.

Lemma trimEnd_idempotent (x : string) : trimEnd (trimEnd x) = trimEnd x.
Proof.
  induction x as [|c x IH]; [reflexivity|]. rewrite (trimEnd_cons c x).
  destruct (trimEnd x) as [|d y] eqn:E.
  - destruct (is_space c) eqn:S; [reflexivity|]. simpl. now rewrite S.
  - rewrite (trimEnd_cons c (String d y)), IH. reflexivity.
Qed.

Lemma trimEnd_keeps_start (x : string) :
  trimStart x = x -> trimStart (trimEnd x) = trimEnd x.
Proof.
  intros E. destruct x as [|c r]; [reflexivity|].
  pose proof (trimStart_fixed _ E c r eq_refl) as S.
  simpl. destruct (trimEnd r); [rewrite S|]; simpl; now rewrite S.
Qed.

Lemma trim_idempotent (s : string) : Validator.trim (Validator.trim s) = Validator.trim s.
Proof.
  unfold Validator.trim, Validator.rtrim, Validator.ltrim.
  rewrite (trimEnd_keeps_start (trimStart s)) by apply trimStart_idempotent.
  apply trimEnd_idempotent.
Qed.

Lemma delete_recipe_writes_back (m : message) (s : string) :
  get_key (msg_params m) "id" = VStr s ->
  get_key (at_location (validated delete_recipe_validation (incoming m)) Params) "id"
  = VStr (Validator.trim s).
Proof.
  intros H. unfold validated, delete_recipe_validation. cbn [fold_left]. unfold run.
  cbn [field locations stack param trim isLength addItem app].
  rewrite (selectFields_single (incoming m) "id" Params eq_refl) by discriminate.
  cbn [map]. rewrite !run_stack_cons. cbn [run_stack].
  cbn [run_instances run_item i_value i_location i_path at_location incoming req_message].
  rewrite H. cbn [toString toString_flat String_].
  set (req1 := write_back (incoming m) Params ["id"] (VStr (Validator.trim s))).
  assert (G : get_key (at_location req1 Params) "id" = VStr (Validator.trim s)).
  { apply (write_back_get (incoming m) Params "id"). simpl. rewrite H. discriminate. }
  rewrite (write_back_same req1 Params "id" _ G). cbn [fst]. exact G.
Qed.

(** X7.  The store's get operation is only ever called with an id of
    exactly 25 characters, the one of the request, unchanged: whatever the
    world before, a call of the store observed during a get request is that
    one. *)
Theorem get_recipe_reaches_the_store_with_a_checked_id
    (m : message) (s : string) (w : world) (c : store_call) :
  get_key (msg_params m) "id" = VStr s ->
  In (Called c) (trace (snd (handle GetRecipeById m w))) ->
  In (Called c) (trace w) \/ (c = GetRecipe (VStr s) /\ String.length s = 25).
Proof.
  intros H Hin. destruct (Nat.eq_dec (String.length s) 25) as [L|L].
  - pose proof L as L'. apply isLength_25 in L'.
    rewrite handle_accepts in Hin
      by (cbn [validations]; now rewrite (get_recipe_collect m s H), L').
    cbn zeta in Hin. cbn [validations] in Hin.
    rewrite (get_recipe_delegation m s H L') in Hin.
    assert (T : In (Called c)
                  (trace w ++ [Logged (validated get_recipe_validation (incoming m));
                               Called (GetRecipe (VStr s))]))
      by (destruct (fst (settle _ (store w))); exact Hin).
    apply in_app_or in T as [T|[T|[T|[]]]]; [now left | discriminate T |].
    injection T as <-. right. split; [reflexivity | exact L].
  - rewrite (get_recipe_rejects m s w H L) in Hin. now left.
Qed.

(** X8.  The store's delete is only ever called for an id that is trimmed
    and has exactly 25 characters: the id of the request without its
    surrounding white space.  The request itself holds the trimmed id from
    validation on, so that is the id the logger is given. *)
Theorem delete_recipe_reaches_the_store_with_a_trimmed_id
    (m : message) (s : string) (w : world) :
  get_key (msg_params m) "id" = VStr s ->
  (forall c,
     In (Called c) (trace (snd (handle DeleteRecipe m w))) ->
     In (Called c) (trace w)
     \/ exists id,
          c = RecipesDelete (VObj [("where", VObj [("id", VStr id)])])
          /\ id = Validator.trim s
          /\ String.length id = 25
          /\ Validator.trim id = id)
  /\ get_key (at_location (validated delete_recipe_validation (incoming m)) Params) "id"
     = VStr (Validator.trim s).
Proof.
  intros H. split; [|now apply delete_recipe_writes_back].
  intros c Hin. destruct (Nat.eq_dec (String.length (Validator.trim s)) 25) as [L|L].
  - pose proof L as L'. apply isLength_25 in L'.
    rewrite handle_accepts in Hin
      by (cbn [validations]; now rewrite (delete_recipe_collect m s H), L').
    cbn zeta in Hin. cbn [validations] in Hin.
    rewrite (delete_recipe_delegation m s H L') in Hin.
    assert (T : In (Called c)
                  (trace w ++
                   [Logged (validated delete_recipe_validation (incoming m));
                    Called (RecipesDelete
                              (VObj [("where", VObj [("id", VStr (Validator.trim s))])]))]))
      by (destruct (fst (settle _ (store w))); exact Hin).
    apply in_app_or in T as [T|[T|[T|[]]]]; [now left | discriminate T |].
    injection T as <-. right. exists (Validator.trim s).
    repeat split; [exact L | apply trim_idempotent].
  - assert (L' : Validator.isLength 25 25 (Validator.trim s) = false).
    { destruct (Validator.isLength 25 25 (Validator.trim s)) eqn:E; [|reflexivity].
      apply isLength_25 in E. contradiction. }
    rewrite handle_rejects in Hin
      by (cbn [validations]; rewrite (delete_recipe_collect m s H), L'; discriminate).
    now left.
Qed.

(** X9.  A request to any of the four routes ends in exactly one of three
    ways, and never falls through the route.  Either validation failed: the
    errors are thrown and the world is as before.  Or the store rejected the
    call: its reason is thrown, nothing is sent.  Or the store resolved: a
    response is sent, with status 200, but for the get route when the store
    resolved with a falsy value, which is answered 404 "Entity not found". *)
Theorem every_request_is_answered_or_fails (op : operation) (m : message) (w : world) :
  let req := validated (validations op) (incoming m) in
  match fst (handle op m w) with
  | inl None => False
  | inl (Some r) =>
      collect (validations op) (incoming m) = []
      /\ exists v,
           fst (settle (delegation op req) (store w)) = Resolved v
           /\ ((status r = 200%Z /\ (op = GetRecipeById -> truthy v = true)
                /\ (op <> DeleteRecipe -> sent r = Json v)
                /\ (op = DeleteRecipe -> sent r = Text "Success"))
               \/ (op = GetRecipeById /\ truthy v = false
                   /\ r = {| status := 404; sent := Text "Entity not found" |}))
  | inr (ValidationException errors) =>
      errors <> [] /\ errors = collect (validations op) (incoming m)
      /\ snd (handle op m w) = w
  | inr (Rejection reason) =>
      collect (validations op) (incoming m) = []
      /\ fst (settle (delegation op req) (store w)) = Rejected reason
  end.
Proof.
  cbn zeta. destruct (collect (validations op) (incoming m)) as [|e es] eqn:C.
  - rewrite (handle_accepts op m w C). cbn zeta.
    destruct (fst (settle _ (store w))) as [v|reason] eqn:S; cbn [fst].
    + split; [reflexivity|]. exists v. split; [reflexivity|].
      destruct op; cbn [reply]; try (left; repeat split; (reflexivity || discriminate
                                                         || (intros; congruence))).
      destruct (truthy v) eqn:T.
      * left. repeat split; (reflexivity || discriminate || (intros; congruence)).
      * right. repeat split.
    + split; reflexivity.
  - rewrite handle_rejects by (rewrite C; discriminate). rewrite C. cbn [fst snd].
    repeat split. discriminate.
Qed.

(** *** The error for a missing field *)

Lemma isString_reports_missing (f : string) :
  toPath f = [Key f] -> reports_missing (body f |> isString) f.
Proof. intros T req H. run_single T H. left. reflexivity. Qed.

Lemma isNumeric_reports_missing (f : string) :
  toPath f = [Key f] -> reports_missing (body f |> isNumeric) f.
Proof. intros T req H. run_single T H. left. reflexivity. Qed.

Lemma isBoolean_reports_missing (f : string) :
  toPath f = [Key f] -> reports_missing (body f |> isBoolean) f.
Proof. intros T req H. run_single T H. left. reflexivity. Qed.

Lemma isIn_reports_missing (f : string) (vocabulary : value) :
  toPath f = [Key f] -> ~ In "" (Object_keys vocabulary) ->
  reports_missing (body f |> toLowerCase |> isIn (Object_keys vocabulary)) f.
Proof.
  intros T V req H. run_single T H. rewrite (isIn_false _ _ V). left. reflexivity.
Qed.

Lemma collect_reports_missing (cs : list chain) (f : string) (req : request) :
  get_key (at_location req Body) f = VUndef ->
  Exists (fun c => reports_missing c f) cs ->
  Forall (fun c => reports_missing c f \/ exists g, head_key c = Some g /\ f <> g) cs ->
  In (missing_error f) (collect cs req).
Proof.
  revert req; induction cs as [|c cs IH]; intros req H E A; [inversion E|].
  inversion A as [|? ? [F|[g [G N]]] A']; subst; simpl.
  - apply in_or_app; left. now apply F.
  - inversion E as [? ? F|? ? E']; subst.
    + apply in_or_app; left. now apply F.
    + apply in_or_app; right. apply IH; auto.
      rewrite (run_frame c g f Body req G N). exact H.
Qed.

Ltac reports_here :=
  lazymatch goal with
  | |- reports_missing (isString (body ?f)) ?f =>
      apply isString_reports_missing; reflexivity
  | |- reports_missing (isNumeric (body ?f)) ?f =>
      apply isNumeric_reports_missing; reflexivity
  | |- reports_missing (isBoolean (body ?f)) ?f =>
      apply isBoolean_reports_missing; reflexivity
  | |- reports_missing (isIn _ (toLowerCase (body ?f))) ?f =>
      apply isIn_reports_missing; [reflexivity | assumption]
  end.

Ltac reports_or_frames :=
  first [ right; eexists; split; [reflexivity | discriminate]
        | left; reports_here ].

Ltac find_reporting :=
  first [ apply Exists_cons_hd; reports_here | apply Exists_cons_tl; find_reporting ].

(** X10.  The vocabularies having no empty key: for each required field
    that the body of a create request lacks, the ValidationException names
    it, with an error whose path is the field, whose location is the body
    and whose value is undefined; several missing fields are all named. *)
Theorem missing_fields_are_named (m : message) (w : world) :
  ~ In "" (Object_keys difficulty) ->
  ~ In "" (Object_keys media) ->
  ~ In "" (Object_keys taste) ->
  forall f, In f required_fields -> get_key (msg_body m) f = VUndef ->
  exists errors,
    handle CreateNewRecipe m w = (inr (ValidationException errors), w)
    /\ forall g, In g required_fields -> get_key (msg_body m) g = VUndef ->
         In (missing_error g) errors.
Proof.
  intros Vd Vm Vt f Hf Mf.
  assert (R : forall g, In g required_fields -> get_key (msg_body m) g = VUndef ->
                In (missing_error g) (collect (validations CreateNewRecipe) (incoming m))).
  { intros g Hin Hmiss. cbn [validations].
    apply collect_reports_missing; [exact Hmiss | |].
    - unfold required_fields in Hin. simpl in Hin.
      repeat (destruct Hin as [<-|Hin]; [unfold RecipeValidation; find_reporting|]).
      contradiction.
    - unfold required_fields in Hin. simpl in Hin.
      repeat (destruct Hin as [<-|Hin];
              [unfold RecipeValidation; repeat (constructor; [reports_or_frames|]);
               constructor|]).
      contradiction. }
  exists (collect (validations CreateNewRecipe) (incoming m)). split; [|exact R].
  apply handle_rejects. intros E. specialize (R f Hf Mf). rewrite E in R. exact R.
Qed.

(** *** Requests without ingredients *)

Lemma run_stack_nil (dry : bool) (items : list item) (req : request)
    (errors : list validation_error) :
  run_stack dry items (req, errors, []) = (req, errors, []).
Proof. induction items as [|it items IH]; simpl; [reflexivity | exact IH]. Qed.

Lemma expandField_no_ingredients (req : request) (fld f : string) (l : location) :
  (forall l', toPath (pathToExpand l' fld) = [Key "ingredients"; Wildcard; Key f]) ->
  Object_keys (get_key (at_location req l) "ingredients") = [] ->
  expandField req fld l = [].
Proof.
  intros T H. unfold expandField. rewrite T. cbn [expandPath]. rewrite H. reflexivity.
Qed.

Lemma no_ingredient_instances (req : request) (fld f : string) :
  (forall l', toPath (pathToExpand l' fld) = [Key "ingredients"; Wildcard; Key f]) ->
  (forall l, Object_keys (get_key (at_location req l) "ingredients") = []) ->
  selectFields req fld all_locations = [].
Proof.
  intros T H. unfold selectFields, all_locations. cbn [flat_map].
  rewrite !(expandField_no_ingredients req fld f) by auto. reflexivity.
Qed.

(** X11.  The ingredients are optional.  When no location of the request
    has ingredients to go through (none at all, an empty array, or a value
    that is no array or object), the three ingredient chains of the create
    route report nothing and leave the message as it is. *)
Theorem absent_ingredients_are_accepted (c : chain) (req : request) :
  In c [check "ingredients.*.name" |> isString;
        check "ingredients.*.amount" |> isNumeric;
        unit_chain] ->
  (forall l, Object_keys (get_key (at_location req l) "ingredients") = []) ->
  In c RecipeValidation
  /\ snd (run false c req) = []
  /\ req_message (fst (run false c req)) = req_message req.
Proof.
  intros Hin H. simpl in Hin. destruct Hin as [<-|[<-|[<-|[]]]].
  - split; [unfold RecipeValidation; do 9 right; left; reflexivity|].
    unfold run. cbn [field locations stack check addItem isString app].
    rewrite (no_ingredient_instances req _ "name")
      by (auto; intros l'; destruct l'; reflexivity).
    cbn [map]. rewrite run_stack_nil. split; reflexivity.
  - split; [unfold RecipeValidation; do 10 right; left; reflexivity|].
    unfold run. cbn [field locations stack check addItem isNumeric app].
    rewrite (no_ingredient_instances req _ "amount")
      by (auto; intros l'; destruct l'; reflexivity).
    cbn [map]. rewrite run_stack_nil. split; reflexivity.
  - split; [unfold RecipeValidation; do 11 right; left; reflexivity|].
    unfold unit_chain, run. cbn [field locations stack check addItem toLowerCase isIn app].
    rewrite (no_ingredient_instances req _ "unit")
      by (auto; intros l'; destruct l'; reflexivity).
    cbn [map]. rewrite run_stack_nil. split; reflexivity.
Qed.

(** *** The ingredients of the body *)








Lemma at_location_message (r r' : request) (l : location) :
  req_message r = req_message r' -> at_location r l = at_location r' l.
Proof. intros E. unfold at_location. now rewrite E. Qed.





(** *** The matched data of the list route *)

Lemma write_back_object (req : request) (l : location) (f : string) (v : value)
    (props : list (string * value)) :
  at_location req l = VObj props ->
  exists props',
    at_location (write_back req l [f] v) l = VObj props' /\ assoc f props' = v.
Proof.
  intros H. unfold write_back. cbn [get]. rewrite H. cbn [get_key].
  destruct (value_eqb (assoc f props) v) eqn:E.
  - apply value_eqb_eq in E. exists props. split; [exact H | exact E].
  - rewrite at_with_location.
    replace (location_eqb l l) with true by (symmetry; now apply location_eqb_eq).
    exists (assoc_set f v props). split; [reflexivity | apply assoc_set_same].
Qed.

Lemma run_stack_single_synced (l : location) (f : string) (items : list item)
    (req : request) (errors : list validation_error) (v : value) (h : bool)
    (props : list (string * value)) :
  at_location req l = VObj props ->
  assoc f props = v ->
  exists req' errors' v' h' props',
    run_stack false items
      (req, errors, [({| i_location := l; i_path := [f]; i_value := v |}, h)])
    = (req', errors', [({| i_location := l; i_path := [f]; i_value := v' |}, h')])
    /\ at_location req' l = VObj props' /\ assoc f props' = v'.
Proof.
  revert req errors v h props; induction items as [|it items IH];
    intros req errors v h props H A.
  - exists req, errors, v, h, props. repeat split; assumption.
  - rewrite run_stack_cons. cbn [run_instances].
    destruct h; [apply (IH req errors v true props H A)|].
    destruct (run_item it req _) as [[v1 es]|]; cbn [i_location i_path].
    + destruct (write_back_object req l f v1 props H) as [props1 [H1 A1]].
      apply (IH _ (errors ++ es) v1 false props1 H1 A1).
    + apply (IH req errors v true props H A).
Qed.

Lemma run_single_synced (c : chain) (l : location) (req : request)
    (props : list (string * value)) :
  toPath (field c) = [Key (field c)] -> locations c = [l] -> l <> Headers ->
  at_location req l = VObj props ->
  exists v props',
    req_contexts (fst (run false c req)) =
    req_contexts req ++
    [{| c_field := field c;
        c_instances := [{| i_location := l; i_path := [field c]; i_value := v |}];
        c_errors := snd (run false c req) |}]
    /\ at_location (fst (run false c req)) l = VObj props'
    /\ assoc (field c) props' = v.
Proof.
  intros T L N H. unfold run. rewrite L, (selectFields_single _ _ _ T N). cbn [map].
  destruct (run_stack_single_synced l (field c) (stack c) req []
              (get_key (at_location req l) (field c)) false props H)
    as (req' & errors' & v' & h' & props' & E & H' & A').
  { rewrite H. reflexivity. }
  pose proof (run_stack_contexts false (stack c)
    (req, [], [({| i_location := l; i_path := [field c];
                   i_value := get_key (at_location req l) (field c) |}, false)])) as C.
  rewrite E in *. cbn [fst snd map] in *.
  exists v', props'. rewrite C. repeat split; assumption.
Qed.

Lemma validated_contexts_synced (l : location) (cs : list chain) (req : request)
    (props : list (string * value)) :
  l <> Headers ->
  Forall (over_one_field l) cs ->
  ForallOrdPairs (fun c1 c2 => field c1 <> field c2) cs ->
  at_location req l = VObj props ->
  exists ctxs props',
    req_contexts (validated cs req) = req_contexts req ++ ctxs
    /\ flat_map c_errors ctxs = collect cs req
    /\ at_location (validated cs req) l = VObj props'
    /\ Forall2 (context_of (validated cs req) l) cs ctxs.
Proof.
  intros N. revert req props; induction cs as [|c cs IH]; intros req props F D H.
  - exists [], props. cbn. rewrite app_nil_r. repeat split; [exact H | constructor].
  - inversion F as [|? ? (T & L & K) F']; subst.
    inversion D as [|? ? Dc D']; subst.
    destruct (run_single_synced c l req props T L N H) as (v & props1 & C1 & H1 & A1).
    destruct (IH (fst (run false c req)) props1 F' D' H1) as (ctxs & props' & C & E & H' & R).
    change (validated (c :: cs) req) with (validated cs (fst (run false c req))).
    eexists (_ :: ctxs), props'. rewrite C, C1, <- app_assoc. cbn [app].
    split; [reflexivity|]. split; [cbn; now rewrite E|]. split; [exact H'|].
    constructor; [|exact R].
    unfold context_of. cbn [c_errors]. do 3 f_equal.
    rewrite (validated_frame cs (field c) l (fst (run false c req))).
    + rewrite H1. cbn [get_key]. now symmetry.
    + rewrite Forall_forall in *. intros c' Hc'.
      destruct (F' c' Hc') as (_ & _ & K'). exists (field c'). split; [exact K'|].
      now apply Dc.
Qed.

(** X13.  The filter the list route hands to the store is the validated
    query, field by field: for a query that is an object, as Express makes
    it, and that passes validation, the matched data have for each of the
    eight filter fields the value the query holds after the chains coerced
    it, undefined for a field that is not there, and nothing else. *)
Theorem matched_data_are_the_validated_filters (m : message) (q : list (string * value)) :
  msg_query m = VObj q ->
  collect FilterValidation (incoming m) = [] ->
  let req := validated FilterValidation (incoming m) in
  matchedData req = VObj (map (fun f => (f, get_key (at_location req Query) f)) filter_fields).
Proof.
  intros Q C. cbn zeta.
  destruct (validated_contexts_synced Query FilterValidation (incoming m) q)
    as (ctxs & props' & E1 & E3 & _ & E2).
  - discriminate.
  - unfold FilterValidation.
    repeat (constructor; [repeat split; reflexivity|]). constructor.
  - unfold FilterValidation.
    repeat (constructor; [repeat (constructor; [discriminate|]); constructor|]).
    constructor.
  - exact Q.
  - rewrite C in E3. set (req := validated FilterValidation (incoming m)) in *.
    unfold matchedData. rewrite E1. cbn [incoming req_contexts app].
    unfold FilterValidation in E2.
    repeat match goal with
           | H : Forall2 _ (_ :: _) _ |- _ => inversion H; clear H; subst
           | H : Forall2 _ [] _ |- _ => inversion H; clear H; subst
           end.
    cbn [flat_map] in E3. repeat (apply app_eq_nil in E3 as [? E3]).
    repeat match goal with
           | H : context_of _ _ _ ?y, E : c_errors ?y = [] |- _ =>
               unfold context_of in H; rewrite E in H; rewrite H; clear H E
           end.
    reflexivity.
Qed.

(** *** What the create route leaves as it was *)

Lemma validated_frame_or_validation (cs : list chain) (k : string) (l : location)
    (req : request) :
  Forall (fun c => validates_only c = true
                   \/ exists f, head_key c = Some f /\ k <> f) cs ->
  get_key (at_location (validated cs req) l) k = get_key (at_location req l) k.
Proof.
  revert req; induction cs as [|c cs IH]; intros req H; [reflexivity|].
  inversion H as [|? ? Hc H']; subst.
  change (validated (c :: cs) req) with (validated cs (fst (run false c req))).
  rewrite (IH _ H'). destruct Hc as [V | [f [Hf Hk]]].
  - now rewrite (at_location_message _ req l (validates_only_message c req V)).
  - now apply run_frame with (f := f).
Qed.

(** X14.  The create route checks the numbers and the boolean of a recipe
    without converting them: validation changes no field of the request, in
    any location, except [difficulty], [media], [taste] and [ingredients].  A
    [servings] sent as the string "4" stays that string, where the list
    route makes it the number 4. *)
Theorem create_converts_only_the_enumerated_fields
    (req : request) (l : location) (f : string) :
  ~ In f ["difficulty"; "media"; "taste"; "ingredients"] ->
  get_key (at_location (validated RecipeValidation req) l) f
  = get_key (at_location req l) f.
Proof.
  intros N. apply validated_frame_or_validation. unfold RecipeValidation.
  repeat lazymatch goal with
    | |- Forall _ [] => constructor
    | |- Forall _ (?c :: _) =>
        constructor;
        [ first [ left; reflexivity
                | right; eexists; split;
                  [reflexivity | intros ->; apply N; cbn [In]; tauto] ] |]
    end.
Qed.
End Controller.

(** ** The statements on the sample requests *)

Local Abbreviation sample_handle :=
  (handle Sample.difficulty Sample.media Sample.taste Sample.unit
          (list string) Sample.prisma_like).

Local Abbreviation success := {| status := 200; sent := Text "Success" |}.

(** C1 as the specification has it fails on a store that rejects the
    deletion of an absent record: the first delete of an id is answered with
    "Success", the second one is not answered at all, the rejection of the
    store propagates. *)
Lemma delete_twice_is_not_success_twice :
  let m := Sample.with_id Sample.id25 in
  let first := sample_handle DeleteRecipe m Sample.one_recipe in
  let second := sample_handle DeleteRecipe m (snd first) in
  String.length (Validator.trim Sample.id25) = 25
  /\ fst first = inl (Some success)
  /\ fst second = inr (Rejection Sample.record_not_found)
  /\ fst second <> inl (Some success).
Proof. vm_compute. repeat split; discriminate. Qed.

Lemma delete_recipe_follows_the_store_witness :
  let m := Sample.with_id "  abcdefghijklmnopqrstuvwxy  " in
  get_key (msg_params m) "id" = VStr "  abcdefghijklmnopqrstuvwxy  "
  /\ String.length (Validator.trim "  abcdefghijklmnopqrstuvwxy  ") = 25
  /\ fst (sample_handle DeleteRecipe m Sample.one_recipe) = inl (Some success)
  /\ fst (sample_handle DeleteRecipe m Sample.empty_store)
     = inr (Rejection Sample.record_not_found).
Proof.
  cbn zeta. split; [reflexivity|]. split; [reflexivity|]. split.
  - rewrite (delete_recipe_follows_the_store Sample.difficulty Sample.media Sample.taste
               Sample.unit (list string) Sample.prisma_like
               (Sample.with_id "  abcdefghijklmnopqrstuvwxy  ")
               "  abcdefghijklmnopqrstuvwxy  " Sample.one_recipe eq_refl eq_refl).
    reflexivity.
  - rewrite (delete_recipe_follows_the_store Sample.difficulty Sample.media Sample.taste
               Sample.unit (list string) Sample.prisma_like
               (Sample.with_id "  abcdefghijklmnopqrstuvwxy  ")
               "  abcdefghijklmnopqrstuvwxy  " Sample.empty_store eq_refl eq_refl).
    reflexivity.
Defined.

Lemma delete_recipe_trims_then_checks_length_witness :
  let padded := "  abcdefghijklmnopqrstuvwxy  " in
  let short := " abcdefghijklmnopqrstuvwx  " in
  (String.length (Validator.trim padded) = 25
   /\ trace (snd (sample_handle DeleteRecipe (Sample.with_id padded) Sample.one_recipe)) =
      [Logged (validated delete_recipe_validation (incoming (Sample.with_id padded)));
       Called (RecipesDelete (VObj [("where", VObj [("id", VStr Sample.id25)])]))])
  /\ (String.length (Validator.trim short) = 24
      /\ sample_handle DeleteRecipe (Sample.with_id short) Sample.one_recipe =
         (inr (ValidationException [invalid_id (VStr "abcdefghijklmnopqrstuvwx")]),
          Sample.one_recipe)).
Proof.
  cbn zeta. split; (split; [reflexivity|]).
  - apply (proj1 (delete_recipe_trims_then_checks_length Sample.difficulty Sample.media
                    Sample.taste Sample.unit (list string) Sample.prisma_like
                    (Sample.with_id "  abcdefghijklmnopqrstuvwxy  ")
                    "  abcdefghijklmnopqrstuvwxy  " Sample.one_recipe eq_refl)).
    reflexivity.
  - apply (proj2 (delete_recipe_trims_then_checks_length Sample.difficulty Sample.media
                    Sample.taste Sample.unit (list string) Sample.prisma_like
                    (Sample.with_id " abcdefghijklmnopqrstuvwx  ")
                    " abcdefghijklmnopqrstuvwx  " Sample.one_recipe eq_refl)).
    vm_compute. discriminate.
Defined.

Lemma get_recipe_rejects_other_lengths_witness :
  let short := "abcdefghijklmnopqrstuvwx" in
  let long := "abcdefghijklmnopqrstuvwxyz" in
  (String.length short <> 25
   /\ sample_handle GetRecipeById (Sample.with_id short) Sample.one_recipe =
      (inr (ValidationException [invalid_id (VStr short)]), Sample.one_recipe))
  /\ (String.length long <> 25
      /\ sample_handle GetRecipeById (Sample.with_id long) Sample.one_recipe =
         (inr (ValidationException [invalid_id (VStr long)]), Sample.one_recipe)).
Proof.
  cbn zeta. split; (split; [vm_compute; discriminate|]).
  - apply (get_recipe_rejects_other_lengths Sample.difficulty Sample.media Sample.taste
             Sample.unit (list string) Sample.prisma_like
             (Sample.with_id "abcdefghijklmnopqrstuvwx") _ Sample.one_recipe eq_refl).
    vm_compute. discriminate.
  - apply (get_recipe_rejects_other_lengths Sample.difficulty Sample.media Sample.taste
             Sample.unit (list string) Sample.prisma_like
             (Sample.with_id "abcdefghijklmnopqrstuvwxyz") _ Sample.one_recipe eq_refl).
    vm_compute. discriminate.
Defined.

Lemma get_recipe_absent_is_not_found_witness :
  String.length Sample.id25 = 25
  /\ fst (Sample.prisma_like (GetRecipe (VStr Sample.id25)) []) = Resolved VNull
  /\ truthy VNull = false
  /\ fst (sample_handle GetRecipeById (Sample.with_id Sample.id25) Sample.empty_store) =
     inl (Some {| status := 404; sent := Text "Entity not found" |}).
Proof.
  split; [reflexivity|]. split; [reflexivity|]. split; [reflexivity|].
  apply (get_recipe_absent_is_not_found Sample.difficulty Sample.media Sample.taste
           Sample.unit (list string) Sample.prisma_like
           (Sample.with_id Sample.id25) Sample.id25 Sample.empty_store VNull);
    reflexivity.
Defined.

Lemma get_recipe_does_not_trim_witness :
  let spaced := " abcdefghijklmnopqrstuvw " in
  let padded := "  abcdefghijklmnopqrstuvwxy  " in
  (String.length spaced = 25
   /\ trace (snd (sample_handle GetRecipeById (Sample.with_id spaced) Sample.one_recipe)) =
      [Logged (validated get_recipe_validation (incoming (Sample.with_id spaced)));
       Called (GetRecipe (VStr spaced))])
  /\ (String.length (Validator.trim padded) = 25
      /\ Validator.trim padded <> padded
      /\ sample_handle GetRecipeById (Sample.with_id padded) Sample.one_recipe =
         (inr (ValidationException [invalid_id (VStr padded)]), Sample.one_recipe)
      /\ collect delete_recipe_validation (incoming (Sample.with_id padded)) = []).
Proof.
  cbn zeta. split.
  - split; [reflexivity|].
    apply (proj1 (get_recipe_does_not_trim Sample.difficulty Sample.media Sample.taste
                    Sample.unit (list string) Sample.prisma_like
                    (Sample.with_id " abcdefghijklmnopqrstuvw ") _ Sample.one_recipe
                    eq_refl)).
    reflexivity.
  - split; [reflexivity|]. split; [vm_compute; discriminate|].
    apply (proj2 (get_recipe_does_not_trim Sample.difficulty Sample.media Sample.taste
                    Sample.unit (list string) Sample.prisma_like
                    (Sample.with_id "  abcdefghijklmnopqrstuvwxy  ") _ Sample.one_recipe
                    eq_refl)).
    + reflexivity.
    + vm_compute. discriminate.
Defined.

Lemma validation_exception_carries_every_violation_witness :
  let m := Sample.with_body Sample.spoiled in
  collect (validations Sample.difficulty Sample.media Sample.taste Sample.unit
             CreateNewRecipe) (incoming m) <> []
  /\ exists result,
       sample_handle CreateNewRecipe m Sample.empty_store =
       (inr (ValidationException result), Sample.empty_store)
       /\ map e_param result =
          [["name"]; ["servings"]; ["difficulty"]; ["ingredients"; "0"; "unit"]].
Proof.
  cbn zeta.
  assert (H : collect (validations Sample.difficulty Sample.media Sample.taste Sample.unit
                         CreateNewRecipe) (incoming (Sample.with_body Sample.spoiled)) <> [])
    by (vm_compute; discriminate).
  split; [exact H|].
  destruct (validation_exception_carries_every_violation Sample.difficulty Sample.media
              Sample.taste Sample.unit (list string) Sample.prisma_like CreateNewRecipe
              (Sample.with_body Sample.spoiled) Sample.empty_store H)
    as (result & E & R & _).
  exists result. split; [exact E|]. rewrite R. vm_compute. reflexivity.
Defined.

Lemma sample_vocabularies_have_no_empty_key :
  ~ In "" (Object_keys Sample.difficulty)
  /\ ~ In "" (Object_keys Sample.media)
  /\ ~ In "" (Object_keys Sample.taste).
Proof.
  repeat split; simpl; intros H;
    repeat (destruct H as [H|H]; [discriminate H|]); exact H.
Defined.

Lemma create_recipe_requires_fields_then_returns_store_result_witness :
  let missing := Sample.with_body Sample.spoiled in
  let complete := Sample.with_body Sample.soup in
  (In "name" required_fields
   /\ get_key (msg_body missing) "name" = VUndef
   /\ exists errors,
        errors <> []
        /\ sample_handle CreateNewRecipe missing Sample.empty_store =
           (inr (ValidationException errors), Sample.empty_store))
  /\ (collect (RecipeValidation Sample.difficulty Sample.media Sample.taste Sample.unit)
        (incoming complete) = []
      /\ fst (sample_handle CreateNewRecipe complete Sample.empty_store) =
         inl (Some {| status := 200;
                      sent := Json (VObj (("id", VStr Sample.assigned_id)
                                          :: ("name", VStr "Soup")
                                          :: ("description", VStr "A plain soup")
                                          :: ("servings", VNum 4)
                                          :: ("time", VNum 30)
                                          :: ("reference", VStr "family")
                                          :: ("difficulty", VStr "easy")
                                          :: ("media", VStr "image")
                                          :: ("taste", VStr "salty")
                                          :: ("vegetarian", VBool true)
                                          :: ("ingredients",
                                              VArr [VObj [("name", VStr "Salt");
                                                          ("amount", VNum 1);
                                                          ("unit", VStr "g")]])
                                          :: [("author", VStr "someone")])) |})).
Proof.
  cbn zeta.
  destruct sample_vocabularies_have_no_empty_key as (Vd & Vm & Vt).
  split.
  - split; [left; reflexivity|]. split; [reflexivity|].
    apply (proj1 (create_recipe_requires_fields_then_returns_store_result
                    Sample.difficulty Sample.media Sample.taste Sample.unit (list string)
                    Sample.prisma_like (Sample.with_body Sample.spoiled) Sample.empty_store
                    Vd Vm Vt) "name"); [left; reflexivity | reflexivity].
  - assert (C : collect (RecipeValidation Sample.difficulty Sample.media Sample.taste
                           Sample.unit) (incoming (Sample.with_body Sample.soup)) = [])
      by (vm_compute; reflexivity).
    split; [exact C|].
    apply (proj2 (proj2 (create_recipe_requires_fields_then_returns_store_result
                           Sample.difficulty Sample.media Sample.taste Sample.unit
                           (list string) Sample.prisma_like (Sample.with_body Sample.soup)
                           Sample.empty_store Vd Vm Vt) C)).
    vm_compute. reflexivity.
Defined.

Lemma enumerated_fields_ignore_case_witness :
  let req := incoming {| msg_body := VObj Sample.soup; msg_cookies := VObj [];
                         msg_headers := VObj []; msg_params := VObj [];
                         msg_query := VObj [("difficulty", VStr "HARD")] |} in
  let filter_chain :=
    query "difficulty" |> if_ (query "difficulty" |> exists_) |> toLowerCase
      |> isIn (Object_keys Sample.difficulty) in
  let salt_unit :=
    {| i_location := Body; i_path := ["ingredients"; "0"; "unit"]; i_value := VStr "G" |} in
  (In ("difficulty", Sample.difficulty)
      (enumerated_fields Sample.difficulty Sample.media Sample.taste)
   /\ get_key (at_location req Query) "difficulty" = VStr "HARD"
   /\ In (Js.toLowerCase "HARD") (Object_keys Sample.difficulty)
   /\ snd (run false filter_chain req) = []
   /\ get_key (at_location (fst (run false filter_chain req)) Query) "difficulty"
      = VStr "hard")
  /\ (In salt_unit (selectFields req "ingredients.*.unit" all_locations)
      /\ In (Js.toLowerCase "G") (Object_keys Sample.unit)
      /\ ~ In (enum_error Body ["ingredients"; "0"; "unit"] "G")
             (snd (run false (unit_chain Sample.unit) req))
      /\ get (at_location (fst (run false (unit_chain Sample.unit) req)) Body)
             ["ingredients"; "0"; "unit"] = VStr "g").
Proof.
  cbn zeta.
  set (req := incoming {| msg_body := VObj Sample.soup; msg_cookies := VObj [];
                          msg_headers := VObj []; msg_params := VObj [];
                          msg_query := VObj [("difficulty", VStr "HARD")] |}).
  set (salt_unit := {| i_location := Body; i_path := ["ingredients"; "0"; "unit"];
                       i_value := VStr "G" |}).
  pose proof (enumerated_fields_ignore_case Sample.difficulty Sample.media Sample.taste
                Sample.unit) as T.
  split.
  - assert (Hin : In ("difficulty", Sample.difficulty)
                     (enumerated_fields Sample.difficulty Sample.media Sample.taste))
      by (left; reflexivity).
    assert (Hk : In (Js.toLowerCase "HARD") (Object_keys Sample.difficulty))
      by (simpl; do 2 right; left; reflexivity).
    destruct (proj1 (T "HARD" req) "difficulty" Sample.difficulty Hin) as (_ & _ & Q & _).
    destruct (Q eq_refl) as [A N].
    split; [exact Hin|]. split; [reflexivity|]. split; [exact Hk|].
    split; [apply A; exact Hk | exact N].
  - assert (Hi : In salt_unit (selectFields req "ingredients.*.unit" all_locations))
      by (vm_compute; left; reflexivity).
    assert (Hk : In (Js.toLowerCase "G") (Object_keys Sample.unit))
      by (simpl; left; reflexivity).
    destruct (proj2 (proj2 (T "G" req)) salt_unit Hi eq_refl) as [A N].
    split; [exact Hi|]. split; [exact Hk|].
    split; [apply A; exact Hk | exact N].
Defined.

Lemma create_forwards_body_and_list_forwards_matched_data_witness :
  let create := Sample.with_body Sample.soup in
  let list := Sample.with_query [("difficulty", VStr "HARD"); ("page", VStr "2")] in
  (collect (RecipeValidation Sample.difficulty Sample.media Sample.taste Sample.unit)
     (incoming create) = []
   /\ ~ In "author" validated_fields
   /\ get_key (at_location
                 (validated (RecipeValidation Sample.difficulty Sample.media Sample.taste
                               Sample.unit) (incoming create)) Body) "author"
      = VStr "someone")
  /\ (collect (FilterValidation Sample.difficulty Sample.media Sample.taste) (incoming list)
      = []
      /\ ~ In "page" filter_fields
      /\ get_key (matchedData
                    (validated (FilterValidation Sample.difficulty Sample.media
                                  Sample.taste) (incoming list))) "page" = VUndef).
Proof.
  cbn zeta.
  pose proof (create_forwards_body_and_list_forwards_matched_data Sample.difficulty
                Sample.media Sample.taste Sample.unit (list string) Sample.prisma_like)
    as T.
  split.
  - assert (C : collect (RecipeValidation Sample.difficulty Sample.media Sample.taste
                           Sample.unit) (incoming (Sample.with_body Sample.soup)) = [])
      by (vm_compute; reflexivity).
    assert (N : ~ In "author" validated_fields)
      by (simpl; intros H; repeat (destruct H as [H|H]; [discriminate H|]); exact H).
    split; [exact C|]. split; [exact N|].
    rewrite (proj2 (proj1 (T (Sample.with_body Sample.soup) Sample.empty_store) C)
               "author" N).
    reflexivity.
  - assert (C : collect (FilterValidation Sample.difficulty Sample.media Sample.taste)
                  (incoming (Sample.with_query
                               [("difficulty", VStr "HARD"); ("page", VStr "2")])) = [])
      by (vm_compute; reflexivity).
    assert (N : ~ In "page" filter_fields)
      by (simpl; intros H; repeat (destruct H as [H|H]; [discriminate H|]); exact H).
    split; [exact C|]. split; [exact N|].
    exact (proj2 (proj2 (proj2 (T (Sample.with_query
                                      [("difficulty", VStr "HARD"); ("page", VStr "2")])
                                   Sample.empty_store) C)) "page" N).
Defined.

(** ** The further properties on the sample requests *)

Lemma absent_filter_is_skipped_witness :
  let c := query "time" |> if_ (query "time" |> exists_) |> isNumeric |> toInt in
  let req := incoming (Sample.with_query [("name", VStr "Soup")]) in
  In c (FilterValidation Sample.difficulty Sample.media Sample.taste)
  /\ get_key (at_location req Query) (field c) = VUndef
  /\ snd (run false c req) = []
  /\ req_message (fst (run false c req)) = req_message req.
Proof.
  cbn zeta.
  assert (I : In (query "time" |> if_ (query "time" |> exists_) |> isNumeric |> toInt)
                 (FilterValidation Sample.difficulty Sample.media Sample.taste))
    by (do 2 right; left; reflexivity).
  split; [exact I|]. split; [reflexivity|].
  apply (absent_filter_is_skipped Sample.difficulty Sample.media Sample.taste _
           (incoming (Sample.with_query [("name", VStr "Soup")])) I).
  reflexivity.
Defined.

Lemma string_filter_requires_a_string_witness :
  let req := incoming (Sample.with_query [("name", VArr [VStr "Soup"; VStr "Stew"])]) in
  let c := query "name" |> if_ (query "name" |> exists_) |> isString in
  In "name" ["name"; "reference"]
  /\ get_key (at_location req Query) "name" <> VUndef
  /\ is_string (get_key (at_location req Query) "name") = false
  /\ snd (run false c req) <> [].
Proof.
  cbn zeta.
  assert (I : In "name" ["name"; "reference"]) by (left; reflexivity).
  assert (P : get_key (at_location
                         (incoming (Sample.with_query
                                      [("name", VArr [VStr "Soup"; VStr "Stew"])])) Query)
                      "name" <> VUndef)
    by (vm_compute; discriminate).
  split; [exact I|]. split; [exact P|]. split; [reflexivity|].
  intros E.
  apply (proj1 (proj2 (string_filter_requires_a_string Sample.difficulty Sample.media
                         Sample.taste "name" _ I P))) in E.
  discriminate E.
Defined.

Lemma numeric_filter_is_coerced_witness :
  let req := incoming (Sample.with_query [("servings", VStr "4")]) in
  let c := query "servings" |> if_ (query "servings" |> exists_) |> isNumeric |> toInt in
  In "servings" ["servings"; "time"]
  /\ get_key (at_location req Query) "servings" = VStr "4"
  /\ Validator.isNumeric "4" = true
  /\ snd (run false c req) = []
  /\ get_key (at_location (fst (run false c req)) Query) "servings" = VNum 4.
Proof.
  cbn zeta.
  assert (I : In "servings" ["servings"; "time"]) by (left; reflexivity).
  destruct (numeric_filter_is_coerced Sample.difficulty Sample.media Sample.taste
              "servings" "4" (incoming (Sample.with_query [("servings", VStr "4")]))
              I eq_refl) as (_ & A & N).
  split; [exact I|]. split; [reflexivity|]. split; [reflexivity|].
  split; [apply A; reflexivity | exact N].
Defined.

Lemma vegetarian_filter_is_coerced_witness :
  let req := incoming (Sample.with_query [("vegetarian", VStr "1")]) in
  let c := query "vegetarian" |> if_ (query "vegetarian" |> exists_)
             |> isBoolean |> toBoolean in
  get_key (at_location req Query) "vegetarian" = VStr "1"
  /\ snd (run false c req) = []
  /\ get_key (at_location (fst (run false c req)) Query) "vegetarian" = VBool true.
Proof.
  cbn zeta.
  assert (I : In "1" ["true"; "false"; "1"; "0"]) by (do 2 right; left; reflexivity).
  destruct (vegetarian_filter_is_coerced Sample.difficulty Sample.media Sample.taste
              "1" (incoming (Sample.with_query [("vegetarian", VStr "1")])) eq_refl)
    as (_ & A & N).
  split; [reflexivity|]. split; [apply A; exact I | exact (N I)].
Defined.


Lemma validators_leave_the_message_witness :
  let req := incoming (Sample.with_id " abcdefghijklmnopqrstuvw ") in
  forallb validates_only get_recipe_validation = true
  /\ req_message (validated get_recipe_validation req) = req_message req.
Proof.
  cbn zeta. split; [reflexivity|].
  apply (validators_leave_the_message get_recipe_validation
           (incoming (Sample.with_id " abcdefghijklmnopqrstuvw "))).
  reflexivity.
Defined.

Lemma get_recipe_reaches_the_store_with_a_checked_id_witness :
  let m := Sample.with_id Sample.id25 in
  let c := GetRecipe (VStr Sample.id25) in
  get_key (msg_params m) "id" = VStr Sample.id25
  /\ In (Called c) (trace (snd (sample_handle GetRecipeById m Sample.one_recipe)))
  /\ (In (Called c) (trace Sample.one_recipe)
      \/ (c = GetRecipe (VStr Sample.id25) /\ String.length Sample.id25 = 25)).
Proof.
  cbn zeta.
  assert (I : In (Called (GetRecipe (VStr Sample.id25)))
                 (trace (snd (sample_handle GetRecipeById (Sample.with_id Sample.id25)
                                Sample.one_recipe))))
    by (vm_compute; right; left; reflexivity).
  split; [reflexivity|]. split; [exact I|].
  exact (get_recipe_reaches_the_store_with_a_checked_id Sample.difficulty Sample.media
           Sample.taste Sample.unit (list string) Sample.prisma_like
           (Sample.with_id Sample.id25) Sample.id25 Sample.one_recipe
           (GetRecipe (VStr Sample.id25)) eq_refl I).
Defined.

Lemma delete_recipe_reaches_the_store_with_a_trimmed_id_witness :
  let m := Sample.with_id "  abcdefghijklmnopqrstuvwxy  " in
  get_key (msg_params m) "id" = VStr "  abcdefghijklmnopqrstuvwxy  "
  /\ get_key (at_location (validated delete_recipe_validation (incoming m)) Params) "id"
     = VStr Sample.id25.
Proof.
  cbn zeta. split; [reflexivity|].
  rewrite (proj2 (delete_recipe_reaches_the_store_with_a_trimmed_id Sample.difficulty
                    Sample.media Sample.taste Sample.unit (list string) Sample.prisma_like
                    (Sample.with_id "  abcdefghijklmnopqrstuvwxy  ")
                    "  abcdefghijklmnopqrstuvwxy  " Sample.one_recipe eq_refl)).
  reflexivity.
Defined.

Lemma missing_fields_are_named_witness :
  let m := Sample.with_body [("name", VStr "Soup"); ("servings", VNum 4)] in
  In "time" required_fields
  /\ get_key (msg_body m) "time" = VUndef
  /\ get_key (msg_body m) "vegetarian" = VUndef
  /\ exists errors,
       sample_handle CreateNewRecipe m Sample.empty_store =
       (inr (ValidationException errors), Sample.empty_store)
       /\ In (missing_error "time") errors
       /\ In (missing_error "vegetarian") errors.
Proof.
  cbn zeta.
  destruct sample_vocabularies_have_no_empty_key as (Vd & Vm & Vt).
  assert (I : In "time" required_fields) by (do 3 right; left; reflexivity).
  assert (J : In "vegetarian" required_fields) by (do 8 right; left; reflexivity).
  split; [exact I|]. split; [reflexivity|]. split; [reflexivity|].
  destruct (missing_fields_are_named Sample.difficulty Sample.media Sample.taste
              Sample.unit (list string) Sample.prisma_like
              (Sample.with_body [("name", VStr "Soup"); ("servings", VNum 4)])
              Sample.empty_store Vd Vm Vt "time" I eq_refl) as (errors & E & M).
  exists errors. split; [exact E|].
  split; [exact (M "time" I eq_refl) | exact (M "vegetarian" J eq_refl)].
Defined.

Lemma absent_ingredients_are_accepted_witness :
  let req := incoming (Sample.with_body [("name", VStr "Soup")]) in
  In (unit_chain Sample.unit)
     [check "ingredients.*.name" |> isString;
      check "ingredients.*.amount" |> isNumeric;
      unit_chain Sample.unit]
  /\ (forall l, Object_keys (get_key (at_location req l) "ingredients") = [])
  /\ snd (run false (unit_chain Sample.unit) req) = []
  /\ req_message (fst (run false (unit_chain Sample.unit) req)) = req_message req.
Proof.
  cbn zeta.
  assert (I : In (unit_chain Sample.unit)
                 [check "ingredients.*.name" |> isString;
                  check "ingredients.*.amount" |> isNumeric;
                  unit_chain Sample.unit])
    by (do 2 right; left; reflexivity).
  assert (A : forall l,
             Object_keys (get_key (at_location
                                     (incoming (Sample.with_body [("name", VStr "Soup")]))
                                     l) "ingredients") = [])
    by (intros l; destruct l; reflexivity).
  split; [exact I|]. split; [exact A|].
  exact (proj2 (absent_ingredients_are_accepted Sample.difficulty Sample.media
                  Sample.taste Sample.unit (unit_chain Sample.unit) _ I A)).
Defined.


Lemma matched_data_are_the_validated_filters_witness :
  let q := [("servings", VStr "4"); ("difficulty", VStr "HARD"); ("page", VStr "2")] in
  let m := Sample.with_query q in
  msg_query m = VObj q
  /\ collect (FilterValidation Sample.difficulty Sample.media Sample.taste) (incoming m) = []
  /\ matchedData (validated (FilterValidation Sample.difficulty Sample.media Sample.taste)
                    (incoming m))
     = VObj [("name", VUndef); ("servings", VNum 4); ("time", VUndef);
             ("reference", VUndef); ("difficulty", VStr "hard"); ("media", VUndef);
             ("taste", VUndef); ("vegetarian", VUndef)].
Proof.
  cbn zeta.
  assert (C : collect (FilterValidation Sample.difficulty Sample.media Sample.taste)
                (incoming (Sample.with_query
                             [("servings", VStr "4"); ("difficulty", VStr "HARD");
                              ("page", VStr "2")])) = [])
    by (vm_compute; reflexivity).
  split; [reflexivity|]. split; [exact C|].
  rewrite (matched_data_are_the_validated_filters Sample.difficulty Sample.media
             Sample.taste
             (Sample.with_query [("servings", VStr "4"); ("difficulty", VStr "HARD");
                                 ("page", VStr "2")])
             [("servings", VStr "4"); ("difficulty", VStr "HARD"); ("page", VStr "2")]
             eq_refl C).
  vm_compute. reflexivity.
Defined.

Lemma create_converts_only_the_enumerated_fields_witness :
  let req := incoming (Sample.with_body [("servings", VStr "4"); ("vegetarian", VStr "1")]) in
  let after := validated (RecipeValidation Sample.difficulty Sample.media Sample.taste
                            Sample.unit) req in
  ~ In "servings" ["difficulty"; "media"; "taste"; "ingredients"]
  /\ ~ In "vegetarian" ["difficulty"; "media"; "taste"; "ingredients"]
  /\ get_key (at_location after Body) "servings" = VStr "4"
  /\ get_key (at_location after Body) "vegetarian" = VStr "1".
Proof.
  cbn zeta.
  assert (S : ~ In "servings" ["difficulty"; "media"; "taste"; "ingredients"])
    by (simpl; intros H; repeat (destruct H as [H|H]; [discriminate H|]); exact H).
  assert (V : ~ In "vegetarian" ["difficulty"; "media"; "taste"; "ingredients"])
    by (simpl; intros H; repeat (destruct H as [H|H]; [discriminate H|]); exact H).
  split; [exact S|]. split; [exact V|]. split.
  - rewrite (create_converts_only_the_enumerated_fields Sample.difficulty Sample.media
               Sample.taste Sample.unit _ Body "servings" S).
    reflexivity.
  - rewrite (create_converts_only_the_enumerated_fields Sample.difficulty Sample.media
               Sample.taste Sample.unit _ Body "vegetarian" V).
    reflexivity.
Defined.

(** ** The model at work *)

Example trim_removes_surrounding_white_space :
  Validator.trim "  ab c  " = "ab c".
Proof. reflexivity. Qed.

Example isNumeric_samples :
  map Validator.isNumeric ["12"; "-3.25"; "+.5"; "1."; ""; "1e5"; "12px"]
  = [true; true; true; false; false; false; false].
Proof. reflexivity. Qed.

Example toInt_samples :
  map Validator.toInt ["12"; " -7.9"; "+.5"; "12px"; "abc"]
  = [VNum 12; VNum (-7); VNaN; VNum 12; VNaN].
Proof. reflexivity. Qed.

Example toBoolean_samples :
  map Validator.toBoolean ["true"; "1"; "yes"; "0"; "FALSE"; ""]
  = [true; true; true; false; false; false].
Proof. reflexivity. Qed.

Example toString_samples :
  map toString [VUndef; VNull; VNaN; VNum 4; VBool true; VStr "x";
                VArr []; VArr [VStr "a"; VStr "b"]; VObj []]
  = [""; ""; ""; "4"; "true"; "x"; ""; "a"; "[object Object]"].
Proof. reflexivity. Qed.

(** A list request: the filter handed to the store has the coerced values
    of the fields that are there, undefined for those that are not, and
    nothing for a parameter the route does not declare. *)
Example list_request_is_coerced :
  let m := Sample.with_query [("servings", VStr "12"); ("vegetarian", VStr "1");
                              ("difficulty", VStr "HaRd"); ("page", VStr "2")] in
  exists req,
    trace (snd (sample_handle ListRecipes m Sample.empty_store)) =
    [Logged req;
     Called (GetAllRecipes
               (VObj [("name", VUndef); ("servings", VNum 12); ("time", VUndef);
                      ("reference", VUndef); ("difficulty", VStr "hard");
                      ("media", VUndef); ("taste", VUndef);
                      ("vegetarian", VBool true)]))].
Proof. eexists. vm_compute. reflexivity. Qed.

(** A create request: the body handed to the store has the enumerated
    fields in lower case and keeps the property the route does not declare. *)
Example create_request_is_lowered :
  exists req,
    trace (snd (sample_handle CreateNewRecipe (Sample.with_body Sample.soup)
                  Sample.empty_store)) =
    [Logged req;
     Called (CreateRecipe
               (VObj [("name", VStr "Soup"); ("description", VStr "A plain soup");
                      ("servings", VNum 4); ("time", VNum 30);
                      ("reference", VStr "family"); ("difficulty", VStr "easy");
                      ("media", VStr "image"); ("taste", VStr "salty");
                      ("vegetarian", VBool true);
                      ("ingredients",
                       VArr [VObj [("name", VStr "Salt"); ("amount", VNum 1);
                                   ("unit", VStr "g")]]);
                      ("author", VStr "someone")]))].
Proof. eexists. vm_compute. reflexivity. Qed.

(** An ingredient sent in the query string is validated like one of the
    body, [check] looking in every location. *)
Example ingredients_are_checked_in_every_location :
  let m := {| msg_body := VObj Sample.soup; msg_cookies := VObj [];
              msg_headers := VObj []; msg_params := VObj [];
              msg_query := VObj [("ingredients", VArr [VObj [("unit", VStr "cup")]])] |} in
  map (fun e => (e_location e, e_param e))
      (collect (RecipeValidation Sample.difficulty Sample.media Sample.taste Sample.unit)
               (incoming m))
  = [(Query, ["ingredients"; "0"; "name"]); (Query, ["ingredients"; "0"; "amount"]);
     (Query, ["ingredients"; "0"; "unit"])].
Proof. vm_compute. reflexivity. Qed.
